(** * colorspace: float32 colour-space conversions, interpolation and gamut mapping

    A shallow embedding of [color.go] (package [colorspace]).  Every Go
    [float32] is an IEEE-754 binary32 value, modelled by the standard
    library's [spec_float] at precision 24 and maximal exponent 128; the
    arithmetic is round-to-nearest-even, one rounding per operation (no
    fused multiply-add, as on amd64).  Untyped Go constants are rounded
    once from their exact value.

    The file has the float32 layer, the imported packages (what IEEE 754
    fixes is defined, the rest is a parameter), the conversions, the
    interpolation, the gamut mapper and the pipelines of the current
    revision, then the functions of the earlier revision that differ,
    and then the properties. *)

From Stdlib Require Import ZArith Bool List Lia.
From Stdlib Require Import Floats.SpecFloat.
Import ListNotations.

Set Implicit Arguments.
Local Open Scope Z_scope.

(** ** binary32 arithmetic *)

Module F32.

Definition prec : Z := 24.
Definition emax : Z := 128.

Definition float32 : Type := spec_float.

Definition add : float32 -> float32 -> float32 := SFadd prec emax.
Definition sub : float32 -> float32 -> float32 := SFsub prec emax.
Definition mul : float32 -> float32 -> float32 := SFmul prec emax.
Definition div : float32 -> float32 -> float32 := SFdiv prec emax.
Definition sqrt : float32 -> float32 := SFsqrt prec emax.
Definition abs : float32 -> float32 := SFabs.
Definition neg : float32 -> float32 := SFopp.

(** Go's comparison operators; every comparison with a NaN is false. *)
Definition ltb (x y : float32) : bool := SFltb x y.
Definition leb (x y : float32) : bool := SFleb x y.
Definition gtb (x y : float32) : bool := SFltb y x.
Definition geb (x y : float32) : bool := SFleb y x.
Definition eqb (x y : float32) : bool := SFeqb x y.

(** Conversion of an exact constant [n/d] to float32: the quotient of the
    two integers, rounded once. *)
Definition of_ratio (n : Z) (d : positive) : float32 :=
  match n with
  | Z0 => S754_zero false
  | Zpos p => SFdiv prec emax (S754_finite false p 0) (S754_finite false d 0)
  | Zneg p => SFdiv prec emax (S754_finite true p 0) (S754_finite false d 0)
  end.

Definition of_Z (n : Z) : float32 := of_ratio n 1.

Definition pInf : float32 := S754_infinity false.
Definition nInf : float32 := S754_infinity true.
Definition NaN : float32 := S754_nan.

Definition is_nan (x : float32) : bool :=
  match x with S754_nan => true | _ => false end.

(** The sign bit.  The model has one NaN, which carries no sign:
    on a NaN [signbit] is [false] and says nothing about the machine's
    NaN, whose sign bit may be set.  Statements about a sign below are
    about data that is not a NaN. *)
Definition signbit (x : float32) : bool :=
  match x with
  | S754_zero s | S754_infinity s | S754_finite s _ _ => s
  | S754_nan => false
  end.

Definition is_zero (x : float32) : bool :=
  match x with S754_zero _ => true | _ => false end.

(** Neither a number with a finite value: an infinity or a NaN. *)
Definition nonfinite (x : float32) : bool :=
  match x with
  | S754_infinity _ | S754_nan => true
  | _ => false
  end.

Definition is_finite (x : float32) : bool := negb (nonfinite x).

End F32.

Export F32.

Declare Scope f32_scope.
Delimit Scope f32_scope with f32.
Bind Scope f32_scope with float32.
Infix "+" := F32.add : f32_scope.
Infix "-" := F32.sub : f32_scope.
Infix "*" := F32.mul : f32_scope.
Infix "/" := F32.div : f32_scope.
Notation "x <? y" := (F32.ltb x y) : f32_scope.
Notation "x <=? y" := (F32.leb x y) : f32_scope.
Notation "x >? y" := (F32.gtb x y) : f32_scope.
Notation "x >=? y" := (F32.geb x y) : f32_scope.
Notation "x =? y" := (F32.eqb x y) : f32_scope.

(** ** Loops

    A Go [for cond { body }] whose body may [return]: a run is given a
    number of guard evaluations it may spend. *)

Inductive step (S R : Type) : Type :=
| Continue (s : S)
| Return (r : R).
Arguments Continue {S R} s.
Arguments Return {S R} r.

Inductive outcome (S R : Type) : Type :=
| Exit (s : S)       (* the guard became false in state [s] *)
| Returned (r : R).  (* the body returned [r] *)
Arguments Exit {S R} s.
Arguments Returned {S R} r.

Fixpoint for_loop {S R : Type} (fuel : nat) (cond : S -> bool)
    (body : S -> step S R) (s : S) : option (outcome S R) :=
  match fuel with
  | O => None
  | Datatypes.S fuel' =>
      if cond s then
        match body s with
        | Continue s' => for_loop fuel' cond body s'
        | Return r => Some (Returned r)
        end
      else Some (Exit s)
  end.

(** A loop without [return] in its body. *)
Definition while {S : Type} (fuel : nat) (cond : S -> bool) (body : S -> S)
    (s : S) : option S :=
  match for_loop (R := Empty_set) fuel cond (fun s => Continue (body s)) s with
  | Some (Exit s') => Some s'
  | _ => None
  end.

(** ** color.go *)

Open Scope f32_scope.

(** [wrapHue]: two loops in sequence. *)
Definition wrapHue (fuel : nat) (h : float32) : option float32 :=
  match while fuel (fun h => h <? of_Z 0) (fun h => h + of_Z 360) h with
  | Some h1 => while fuel (fun h => h >=? of_Z 360) (fun h => h - of_Z 360) h1
  | None => None
  end.

(** *** The imported packages

    [math32] (github.com/chewxy/math32): [Abs], [Copysign], [Min], [Max]
    and [Sqrt] are fixed by IEEE 754 and by package math's documentation
    of the special cases. *)

Module math32.

Definition Abs (x : float32) : float32 := F32.abs x.

(** The sign of [y] is read with [signbit]: for a NaN [y] the machine
    takes the sign bit of that NaN, which the model does not have. *)
Definition Copysign (x y : float32) : float32 :=
  if signbit y then F32.neg (F32.abs x) else F32.abs x.

Definition Sqrt (x : float32) : float32 := F32.sqrt x.

Definition Max (x y : float32) : float32 :=
  match x, y with
  | S754_infinity false, _ | _, S754_infinity false => pInf
  | S754_nan, _ | _, S754_nan => NaN
  | S754_zero sx, S754_zero _ => if sx then y else x
  | _, _ => if x >? y then x else y
  end.

Definition Min (x y : float32) : float32 :=
  match x, y with
  | S754_infinity true, _ | _, S754_infinity true => nInf
  | S754_nan, _ | _, S754_nan => NaN
  | S754_zero sx, S754_zero _ => if sx then x else y
  | _, _ => if x <? y then x else y
  end.

(** float32(π) *)
Definition Pi : float32 :=
  of_ratio 314159265358979323846264338327950288 (10 ^ 35).

End math32.

(** The transcendental functions of [math32] are not IEEE operations:
    their results, bit for bit, belong to that package.  Likewise the
    scalar helpers of [ms1] (github.com/soypat/geometry/ms1).  The
    development is parametric in both. *)

Class Math32 : Type := {
  Pow : float32 -> float32 -> float32;
  Cbrt : float32 -> float32;
  Atan2 : float32 -> float32 -> float32;   (* Atan2 y x *)
  Sincos : float32 -> float32 * float32;   (* (sin, cos) *)
  Mod : float32 -> float32 -> float32
}.

Class MS1 : Type := {
  Clamp : float32 -> float32 -> float32 -> float32;       (* Clamp v min max *)
  Interp : float32 -> float32 -> float32 -> float32;      (* Interp x y a *)
  InterpWrap : float32 -> float32 -> float32 -> float32 -> float32
                                                          (* InterpWrap w x y a *)
}.

(** [ms3] (github.com/soypat/geometry/ms3): three-component vectors and
    3x3 matrices.  [NewMat3] reads nine numbers row by row and
    [MulMatVec m v] is the product of [m] with the column [v], each sum
    taken left to right; the package test of red (1,0,0) fixes this
    orientation. *)

Module ms3.

Record Vec : Type := mkVec { X : float32; Y : float32; Z : float32 }.

Record Mat3 : Type := mkMat3 {
  x00 : float32; x01 : float32; x02 : float32;
  x10 : float32; x11 : float32; x12 : float32;
  x20 : float32; x21 : float32; x22 : float32
}.

Definition NewMat3 (v : list float32) : Mat3 :=
  let at_ i := nth i v (of_Z 0) in
  mkMat3 (at_ 0%nat) (at_ 1%nat) (at_ 2%nat)
         (at_ 3%nat) (at_ 4%nat) (at_ 5%nat)
         (at_ 6%nat) (at_ 7%nat) (at_ 8%nat).

Definition MulMatVec (m : Mat3) (v : Vec) : Vec :=
  mkVec (X v * x00 m + Y v * x01 m + Z v * x02 m)
        (X v * x10 m + Y v * x11 m + Z v * x12 m)
        (X v * x20 m + Y v * x21 m + Z v * x22 m).

Definition Sub (a b : Vec) : Vec := mkVec (X a - X b) (Y a - Y b) (Z a - Z b).
Definition MulElem (a b : Vec) : Vec := mkVec (X a * X b) (Y a * Y b) (Z a * Z b).
Definition DivElem (a b : Vec) : Vec := mkVec (X a / X b) (Y a / Y b) (Z a / Z b).
Definition Dot (a b : Vec) : float32 := X a * X b + Y a * Y b + Z a * Z b.

(** [Vec.Max] and [Vec.Min]: the largest and the smallest component. *)
Definition Max (a : Vec) : float32 := math32.Max (X a) (math32.Max (Y a) (Z a)).
Definition Min (a : Vec) : float32 := math32.Min (X a) (math32.Min (Y a) (Z a)).

End ms3.

(** *** Constants *)

Definition dec (digits : BinNums.Z) (places : positive) : float32 :=
  of_ratio digits (10 ^ places).

Definition undefinedHue : float32 := of_Z 0.
Definition epsUnit : float32 := dec 1 5.
(* d50x, d50z = 0.3457 / 0.3585, (1.0 - 0.3457 - 0.3585) / 0.3585 *)
Definition d50x : float32 := of_ratio 3457 3585.
Definition d50z : float32 := of_ratio 2958 3585.

(** *** The colour types *)

Record OKLAB : Type := mkOKLAB { OKLAB_L : float32; OKLAB_A : float32; OKLAB_B : float32 }.
Record OKLCH : Type := mkOKLCH { OKLCH_L : float32; OKLCH_C : float32; OKLCH_H : float32 }.
Record CIELCH : Type := mkCIELCH { CIELCH_L : float32; CIELCH_C : float32; CIELCH_H : float32 }.
Record CIELAB : Type := mkCIELAB { CIELAB_L : float32; CIELAB_A : float32; CIELAB_B : float32 }.
Record SRGB : Type := mkSRGB { SRGB_R : float32; SRGB_G : float32; SRGB_B : float32 }.
Record LSRGB : Type := mkLSRGB { LSRGB_R : float32; LSRGB_G : float32; LSRGB_B : float32 }.
Record CIEXYZ : Type := mkCIEXYZ { CIEXYZ_X : float32; CIEXYZ_Y : float32; CIEXYZ_Z : float32 }.
Record HSV : Type := mkHSV { HSV_H : float32; HSV_S : float32; HSV_V : float32 }.
Record HSL : Type := mkHSL { HSL_H : float32; HSL_S : float32; HSL_L : float32 }.

(** Go's conversions [OKLCH(x)] and [CIELCH(x)] between the two
    identically shaped structs. *)
Definition CIELCH_of_OKLCH (c : OKLCH) : CIELCH :=
  mkCIELCH (OKLCH_L c) (OKLCH_C c) (OKLCH_H c).
Definition OKLCH_of_CIELCH (c : CIELCH) : OKLCH :=
  mkOKLCH (CIELCH_L c) (CIELCH_C c) (CIELCH_H c).

(** [color.Color]: anything with an [RGBA] accessor of four uint32. *)
Definition uint32 : Type := BinNums.Z.

Class Color (T : Type) : Type := {
  RGBA : T -> uint32 * uint32 * uint32 * uint32
}.

(** image/color.RGBA64, the pixel type of the package's test palette. *)
Record RGBA64 : Type := mkRGBA64 { px_R : uint32; px_G : uint32; px_B : uint32; px_A : uint32 }.

#[export] Instance RGBA64_Color : Color RGBA64 :=
  {| RGBA := fun c => (px_R c, px_G c, px_B c, px_A c) |}.

(** [uint32(x)] of a float32: the fraction is dropped; a value that has
    no uint32 is left unspecified by the language. *)
Definition uint32_of_float32 (x : float32) : option uint32 :=
  match x with
  | S754_zero _ => Some 0%Z
  | S754_finite s m e =>
      let z := cond_Zopp s (BinInt.Z.shiftl (Zpos m) e) in
      if ((0 <=? z) && (z <? 2 ^ 32))%Z then Some z else None
  | _ => None
  end.

Definition vec_SRGB (c : SRGB) : ms3.Vec := ms3.mkVec (SRGB_R c) (SRGB_G c) (SRGB_B c).
Definition vec_LSRGB (c : LSRGB) : ms3.Vec := ms3.mkVec (LSRGB_R c) (LSRGB_G c) (LSRGB_B c).
Definition vec_CIEXYZ (c : CIEXYZ) : ms3.Vec := ms3.mkVec (CIEXYZ_X c) (CIEXYZ_Y c) (CIEXYZ_Z c).
Definition vec_CIELAB (c : CIELAB) : ms3.Vec := ms3.mkVec (CIELAB_L c) (CIELAB_A c) (CIELAB_B c).
Definition vec_OKLAB (c : OKLAB) : ms3.Vec := ms3.mkVec (OKLAB_L c) (OKLAB_A c) (OKLAB_B c).

(** IlluminantD50 *)
Definition IlluminantD50 (ynormal : float32) : CIEXYZ :=
  mkCIEXYZ (ynormal * d50x) ynormal (d50z * ynormal).

Definition d50 : ms3.Vec := vec_CIEXYZ (IlluminantD50 (of_Z 1)).

Definition linSRGBToXYZ : ms3.Mat3 :=
  ms3.NewMat3
    [ of_ratio 506752 1228815; of_ratio 87881 245763; of_ratio 12673 70218;
      of_ratio 87098 409605; of_ratio 175762 245763; of_ratio 12673 175545;
      of_ratio 7918 409605; of_ratio 87881 737289; of_ratio 1001167 1053270 ].

Definition xyzToLinSRGB : ms3.Mat3 :=
  ms3.NewMat3
    [ of_ratio 12831 3959; of_ratio (-329) 214; of_ratio (-1974) 3959;
      of_ratio (-851781) 878810; of_ratio 1648619 878810; of_ratio 36519 878810;
      of_ratio 705 12673; of_ratio (-2585) 12673; of_ratio 705 667 ].

Definition xyzToLMS : ms3.Mat3 :=
  ms3.NewMat3
    [ dec 8190224379967030 16; dec 3619062600528904 16; dec (-1288737815209879) 16;
      dec 329836539323885 16; dec 9292868615863434 16; dec 361446663506424 16;
      dec 481771893596242 16; dec 2642395317527308 16; dec 6335478284694309 16 ].

Definition lmsToOKLAB : ms3.Mat3 :=
  ms3.NewMat3
    [ dec 2104542683093140 16; dec 7936177747023054 16; dec (-40720430116193) 16;
      dec 19779985324311684 16; dec (-24285922420485799) 16; dec 4505937096174110 16;
      dec 259040424655478 16; dec 7827717124575296 16; dec (-8086757549230774) 16 ].

Definition lmsToXYZ : ms3.Mat3 :=
  ms3.NewMat3
    [ dec 12268798758459243 16; dec (-5578149944602171) 16; dec 2813910456659647 16;
      dec (-405757452148008) 16; dec 11122868032803170 16; dec (-717110580655164) 16;
      dec (-763729366746601) 16; dec (-4214933324022432) 16; dec 15869240198367816 16 ].

Definition oklabToLMS : ms3.Mat3 :=
  ms3.NewMat3
    [ dec 10000000000000000 16; dec 3963377773761749 16; dec 2158037573099136 16;
      dec 10000000000000000 16; dec (-1055613458156586) 16; dec (-638541728258133) 16;
      dec 10000000000000000 16; dec (-894841775298119) 16; dec (-12914855480194092) 16 ].

(** *** Conversions (current revision of color.go) *)

Section Colorspace.
Context {M : Math32} {K : MS1}.

(** ColorToSRGB: the alpha channel is read and dropped. *)
Definition ColorToSRGB {T : Type} `{Color T} (c : T) : SRGB :=
  let '(r, g, b, _) := RGBA c in
  mkSRGB (of_Z r / of_Z 65535) (of_Z g / of_Z 65535) (of_Z b / of_Z 65535).

Definition transferFunc (v : float32) : float32 :=
  let sign := math32.Copysign (of_Z 1) v in
  let abs := math32.Abs v in
  if abs <=? dec 4045 5 then v / dec 1292 2
  else sign * Pow ((abs + dec 55 3) / dec 1055 3) (dec 24 1).

Definition invTransferFunc (v : float32) : float32 :=
  let sign := math32.Copysign (of_Z 1) v in
  let abs := math32.Abs v in
  if abs <=? dec 31308 7 then dec 1292 2 * v
  else sign * (dec 1055 3 * Pow abs (of_ratio 10 24) - dec 55 3).

Definition SRGB_LSRGB (c : SRGB) : LSRGB :=
  mkLSRGB (transferFunc (SRGB_R c)) (transferFunc (SRGB_G c)) (transferFunc (SRGB_B c)).

Definition LSRGB_SRGB (c : LSRGB) : SRGB :=
  mkSRGB (invTransferFunc (LSRGB_R c)) (invTransferFunc (LSRGB_G c))
         (invTransferFunc (LSRGB_B c)).

Definition LSRGB_CIEXYZ (c : LSRGB) : CIEXYZ :=
  let v := ms3.MulMatVec linSRGBToXYZ (vec_LSRGB c) in
  mkCIEXYZ (ms3.X v) (ms3.Y v) (ms3.Z v).

Definition CIEXYZ_LSRGB (c : CIEXYZ) : LSRGB :=
  let v := ms3.MulMatVec xyzToLinSRGB (vec_CIEXYZ c) in
  mkLSRGB (ms3.X v) (ms3.Y v) (ms3.Z v).

(** SRGB.RGBA, the accessor that makes SRGB a [color.Color]: 0.5 is
    added to reduce bias; the alpha is the constant 0xffff. *)
Definition SRGB_RGBA (c : SRGB)
  : option uint32 * option uint32 * option uint32 * uint32 :=
  (uint32_of_float32 (SRGB_R c * of_Z 65535 + dec 5 1),
   uint32_of_float32 (SRGB_G c * of_Z 65535 + dec 5 1),
   uint32_of_float32 (SRGB_B c * of_Z 65535 + dec 5 1),
   65535%Z).

Definition CIEXYZ_OKLAB (c : CIEXYZ) : OKLAB :=
  let lms := ms3.MulMatVec xyzToLMS (vec_CIEXYZ c) in
  let v := ms3.MulMatVec lmsToOKLAB
             (ms3.mkVec (Cbrt (ms3.X lms)) (Cbrt (ms3.Y lms)) (Cbrt (ms3.Z lms))) in
  mkOKLAB (ms3.X v) (ms3.Y v) (ms3.Z v).

Definition OKLAB_CIEXYZ (c : OKLAB) : CIEXYZ :=
  let LMSnl := ms3.MulMatVec oklabToLMS (vec_OKLAB c) in
  let v := ms3.MulMatVec lmsToXYZ
             (ms3.mkVec (ms3.X LMSnl * ms3.X LMSnl * ms3.X LMSnl)
                        (ms3.Y LMSnl * ms3.Y LMSnl * ms3.Y LMSnl)
                        (ms3.Z LMSnl * ms3.Z LMSnl * ms3.Z LMSnl)) in
  mkCIEXYZ (ms3.X v) (ms3.Y v) (ms3.Z v).

Definition OKLAB_OKLCH (c : OKLAB) : OKLCH :=
  let eps := dec 4 6 in
  let hue := Atan2 (OKLAB_B c) (OKLAB_A c) * of_Z 180 / math32.Pi in
  let chroma := math32.Sqrt (OKLAB_A c * OKLAB_A c + OKLAB_B c * OKLAB_B c) in
  let hue := if hue <? of_Z 0 then hue + of_Z 360 else hue in
  let hue := if chroma <=? eps then undefinedHue else hue in
  mkOKLCH (OKLAB_L c) chroma hue.

Definition LSRGB_InGamut (c : LSRGB) : bool :=
  (LSRGB_R c <=? of_Z 1) && (LSRGB_G c <=? of_Z 1) && (LSRGB_B c <=? of_Z 1)
  && (LSRGB_R c >=? of_Z 0) && (LSRGB_G c >=? of_Z 0) && (LSRGB_B c >=? of_Z 0).

Definition SRGB_InGamut (c : SRGB) : bool :=
  (SRGB_R c <=? of_Z 1) && (SRGB_G c <=? of_Z 1) && (SRGB_B c <=? of_Z 1)
  && (SRGB_R c >=? of_Z 0) && (SRGB_G c >=? of_Z 0) && (SRGB_B c >=? of_Z 0).

Definition LSRGB_ClipToGamut (c : LSRGB) : LSRGB :=
  mkLSRGB (Clamp (LSRGB_R c) (of_Z 0) (of_Z 1))
          (Clamp (LSRGB_G c) (of_Z 0) (of_Z 1))
          (Clamp (LSRGB_B c) (of_Z 0) (of_Z 1)).

Definition SRGB_ClipToGamut (c : SRGB) : SRGB :=
  mkSRGB (Clamp (SRGB_R c) (of_Z 0) (of_Z 1))
         (Clamp (SRGB_G c) (of_Z 0) (of_Z 1))
         (Clamp (SRGB_B c) (of_Z 0) (of_Z 1)).

(** OKLCH.OKLAB: hue in degrees. *)
Definition OKLCH_OKLAB (c : OKLCH) : OKLAB :=
  let '(sin, cos) := Sincos (OKLCH_H c * math32.Pi / of_Z 180) in
  mkOKLAB (OKLCH_L c) (OKLCH_C c * cos) (OKLCH_C c * sin).

(** CIEXYZ.CIELAB, relative to D50: ε = 216/24389, κ = 24389/27. *)
Definition CIEXYZ_CIELAB (c : CIEXYZ) : CIELAB :=
  let eps := of_ratio 216 24389 in
  let kappa := of_ratio 24389 27 in
  let xyz := ms3.DivElem (vec_CIEXYZ c) d50 in
  let f := fun x : float32 =>
    if x >? eps then Cbrt x else (kappa * x + of_Z 16) / of_Z 116 in
  mkCIELAB (of_Z 116 * f (ms3.Y xyz) - of_Z 16)
           (of_Z 500 * (f (ms3.X xyz) - f (ms3.Y xyz)))
           (of_Z 200 * (f (ms3.Y xyz) - f (ms3.Z xyz))).

Definition CIELAB_CIELCH (c : CIELAB) : CIELCH :=
  let eps := dec 15 4 in
  let chroma := math32.Sqrt (CIELAB_A c * CIELAB_A c + CIELAB_B c * CIELAB_B c) in
  let hue := Atan2 (CIELAB_B c) (CIELAB_A c) * of_Z 180 / math32.Pi in
  let hue := if hue <? of_Z 0 then hue + of_Z 360 else hue in
  let hue := if chroma <=? eps then undefinedHue else hue in
  mkCIELCH (CIELAB_L c) chroma hue.

(** CIELAB.CIEXYZ; κ*ε is the constant 8 and ecbrt is 6/29. *)
Definition CIELAB_CIEXYZ (c : CIELAB) : CIEXYZ :=
  let kappa := of_ratio 24389 27 in
  let ecbrt := of_ratio 6 29 in
  let f1 := (CIELAB_L c + of_Z 16) / of_Z 116 in
  let f0 := CIELAB_A c / of_Z 500 + f1 in
  let f2 := f1 - CIELAB_B c / of_Z 200 in
  let x := if f0 >? ecbrt then f0 * f0 * f0
           else (of_Z 116 * f0 - of_Z 16) / kappa in
  let y := if CIELAB_L c >? of_Z 8 then
             let ycbrt := (CIELAB_L c + of_Z 16) / of_Z 116 in
             ycbrt * ycbrt * ycbrt
           else (of_Z 116 * CIELAB_L c - of_Z 16) / kappa in
  let z := if f2 >? ecbrt then f2 * f2 * f2
           else (of_Z 116 * f2 - of_Z 16) / kappa in
  let v := ms3.MulElem (ms3.mkVec x y z) d50 in
  mkCIEXYZ (ms3.X v) (ms3.Y v) (ms3.Z v).

Definition OKLAB_DeltaE (reference sample : OKLAB) : float32 :=
  let e := ms3.Sub (vec_OKLAB reference) (vec_OKLAB sample) in
  math32.Sqrt (ms3.Dot e e).

Definition CIELCH_CIELAB (c : CIELCH) : CIELAB :=
  let '(sin, cos) := Sincos (CIELCH_H c * math32.Pi / of_Z 180) in
  mkCIELAB (CIELCH_L c) (CIELCH_C c * cos) (CIELCH_C c * sin).

(** *** Interpolation *)

(** The assignment [c.H = h] on a local copy. *)
Definition CIELCH_with_H (c : CIELCH) (h : float32) : CIELCH :=
  mkCIELCH (CIELCH_L c) (CIELCH_C c) h.

(** CIELCH.Lerp.  A colour is "powerless" when its chroma is below
    0.000004; OKLCH.Lerp goes through the same function. *)
Definition CIELCH_Lerp (from to : CIELCH) (v : float32) : CIELCH :=
  let eps := dec 4 6 in
  let fromPowerless := CIELCH_C from <? eps in
  let toPowerless := CIELCH_C to <? eps in
  let blend := fun from to : CIELCH =>
    mkCIELCH (Interp (CIELCH_L from) (CIELCH_L to) v)
             (Interp (CIELCH_C from) (CIELCH_C to) v)
             (InterpWrap (of_Z 360) (CIELCH_H from) (CIELCH_H to) v) in
  if fromPowerless || toPowerless then
    if fromPowerless && toPowerless then
      (* Both colors are grayish, just ignore hue interpolation entirely. *)
      mkCIELCH (Interp (CIELCH_L from) (CIELCH_L to) v) (of_Z 0) undefinedHue
    else if negb toPowerless then
      blend (CIELCH_with_H from (CIELCH_H to)) to     (* from.H = to.H *)
    else
      blend from (CIELCH_with_H to (CIELCH_H from))   (* to.H = from.H *)
  else blend from to.

Definition OKLCH_Lerp (from to : OKLCH) (v : float32) : OKLCH :=
  OKLCH_of_CIELCH (CIELCH_Lerp (CIELCH_of_OKLCH from) (CIELCH_of_OKLCH to) v).

Definition CIELAB_Lerp (from to : CIELAB) (v : float32) : CIELAB :=
  mkCIELAB (Interp (CIELAB_L from) (CIELAB_L to) v)
           (Interp (CIELAB_A from) (CIELAB_A to) v)
           (Interp (CIELAB_B from) (CIELAB_B to) v).

Definition OKLAB_Lerp (from to : OKLAB) (v : float32) : OKLAB :=
  mkOKLAB (Interp (OKLAB_L from) (OKLAB_L to) v)
          (Interp (OKLAB_A from) (OKLAB_A to) v)
          (Interp (OKLAB_B from) (OKLAB_B to) v).

Definition CIEXYZ_Lerp (from to : CIEXYZ) (v : float32) : CIEXYZ :=
  mkCIEXYZ (Interp (CIEXYZ_X from) (CIEXYZ_X to) v)
           (Interp (CIEXYZ_Y from) (CIEXYZ_Y to) v)
           (Interp (CIEXYZ_Z from) (CIEXYZ_Z to) v).

Definition LSRGB_Lerp (from to : LSRGB) (v : float32) : LSRGB :=
  mkLSRGB (Interp (LSRGB_R from) (LSRGB_R to) v)
          (Interp (LSRGB_G from) (LSRGB_G to) v)
          (Interp (LSRGB_B from) (LSRGB_B to) v).

Definition SRGB_Lerp (from to : SRGB) (v : float32) : SRGB :=
  mkSRGB (Interp (SRGB_R from) (SRGB_R to) v)
         (Interp (SRGB_G from) (SRGB_G to) v)
         (Interp (SRGB_B from) (SRGB_B to) v).

(** *** The gamut mapper *)

Definition JND : float32 := dec 2 2.
Definition gm_eps : float32 := dec 1 4.

(** The variables of OKLCH.GamutMappedLSRGB that live across iterations. *)
Record gm_state : Type := mkGm {
  gm_cmin : float32;
  gm_cmax : float32;
  gm_minInGamut : bool;
  gm_current : OKLCH;
  gm_clipped : LSRGB;
  gm_E : float32
}.

Definition gm_cond (s : gm_state) : bool := gm_cmax s - gm_cmin s >? gm_eps.

Definition gm_body (s : gm_state) : step gm_state OKLCH :=
  let chroma := dec 5 1 * (gm_cmin s + gm_cmax s) in
  let current := mkOKLCH (OKLCH_L (gm_current s)) chroma (OKLCH_H (gm_current s)) in
  let currentRGB := CIEXYZ_LSRGB (OKLAB_CIEXYZ (OKLCH_OKLAB current)) in
  let probe :=
    LSRGB_InGamut
      (CIEXYZ_LSRGB (OKLAB_CIEXYZ (OKLCH_OKLAB
         (mkOKLCH (OKLCH_L current) chroma (OKLCH_H current))))) in
  if gm_minInGamut s && LSRGB_InGamut currentRGB then
    Continue (mkGm chroma (gm_cmax s) probe current (gm_clipped s) (gm_E s))
  else
    let clipped := LSRGB_ClipToGamut currentRGB in
    let E := OKLAB_DeltaE (CIEXYZ_OKLAB (LSRGB_CIEXYZ clipped)) (OKLCH_OKLAB current) in
    if E <? JND then
      if JND - E <? gm_eps then
        Return (OKLAB_OKLCH (CIEXYZ_OKLAB (LSRGB_CIEXYZ clipped)))
      else
        Continue (mkGm chroma (gm_cmax s) probe current clipped E)
    else
      Continue (mkGm (gm_cmin s) chroma (gm_minInGamut s) current clipped E).

(** The clip test and the binary search: the body of the mapper below
    its lightness guard.  [None] when the loop is still running after
    [fuel] evaluations of its guard. *)
Definition gm_search (fuel : nat) (origin : OKLCH) : option OKLCH :=
  let current := origin in
  let clipped := LSRGB_ClipToGamut (CIEXYZ_LSRGB (OKLAB_CIEXYZ (OKLCH_OKLAB current))) in
  let E := OKLAB_DeltaE (OKLCH_OKLAB origin) (CIEXYZ_OKLAB (LSRGB_CIEXYZ clipped)) in
  if E <? JND then Some (OKLAB_OKLCH (CIEXYZ_OKLAB (LSRGB_CIEXYZ clipped)))
  else
    match for_loop fuel gm_cond gm_body
            (mkGm (of_Z 0) (OKLCH_C origin) true current clipped E) with
    | Some (Returned r) => Some r
    | Some (Exit s) => Some (OKLAB_OKLCH (CIEXYZ_OKLAB (LSRGB_CIEXYZ (gm_clipped s))))
    | None => None
    end.

(** OKLCH.GamutMappedLSRGB *)
Definition OKLCH_GamutMappedLSRGB (fuel : nat) (c : OKLCH) : option OKLCH :=
  let origin := c in
  if (OKLCH_L origin <? of_Z 0) || (OKLCH_L origin >? of_Z 1) then
    (* Early return for Lightness exceed range. *)
    Some (mkOKLCH (math32.Min (math32.Max (OKLCH_L origin) (of_Z 0)) (of_Z 1))
                  (of_Z 0) (of_Z 0))
  else gm_search fuel origin.

(** The OKLCH form of a linear colour clipped into the gamut, as every
    return of the search computes it. *)
Definition clipped_OKLCH (rgb : LSRGB) : OKLCH :=
  OKLAB_OKLCH (CIEXYZ_OKLAB (LSRGB_CIEXYZ (LSRGB_ClipToGamut rgb))).

(** *** The five pipelines.  Each returns an SRGB as [color.Color]. *)

Section Pipelines.
Context {T1 T2 : Type} `{Color T1} `{Color T2}.

Definition LerpSRGB (c1 : T1) (c2 : T2) (v : float32) : SRGB :=
  let o1 := ColorToSRGB c1 in
  let o2 := ColorToSRGB c2 in
  SRGB_Lerp o1 o2 v.

Definition LerpLSRGB (c1 : T1) (c2 : T2) (v : float32) : SRGB :=
  let o1 := SRGB_LSRGB (ColorToSRGB c1) in
  let o2 := SRGB_LSRGB (ColorToSRGB c2) in
  LSRGB_SRGB (LSRGB_ClipToGamut (LSRGB_Lerp o1 o2 v)).

Definition LerpCIEXYZ (c1 : T1) (c2 : T2) (v : float32) : SRGB :=
  let o1 := LSRGB_CIEXYZ (SRGB_LSRGB (ColorToSRGB c1)) in
  let o2 := LSRGB_CIEXYZ (SRGB_LSRGB (ColorToSRGB c2)) in
  LSRGB_SRGB (LSRGB_ClipToGamut (CIEXYZ_LSRGB (CIEXYZ_Lerp o1 o2 v))).

Definition LerpOKLAB (fuel : nat) (c1 : T1) (c2 : T2) (v : float32) : option SRGB :=
  let o1 := CIEXYZ_OKLAB (LSRGB_CIEXYZ (SRGB_LSRGB (ColorToSRGB c1))) in
  let o2 := CIEXYZ_OKLAB (LSRGB_CIEXYZ (SRGB_LSRGB (ColorToSRGB c2))) in
  let lch := OKLAB_OKLCH (OKLAB_Lerp o1 o2 v) in
  match OKLCH_GamutMappedLSRGB fuel lch with
  | Some mapped =>
      Some (LSRGB_SRGB (LSRGB_ClipToGamut (CIEXYZ_LSRGB (OKLAB_CIEXYZ (OKLCH_OKLAB mapped)))))
  | None => None
  end.

Definition LerpOKLCH (fuel : nat) (c1 : T1) (c2 : T2) (v : float32) : option SRGB :=
  let o1 := OKLAB_OKLCH (CIEXYZ_OKLAB (LSRGB_CIEXYZ (SRGB_LSRGB (ColorToSRGB c1)))) in
  let o2 := OKLAB_OKLCH (CIEXYZ_OKLAB (LSRGB_CIEXYZ (SRGB_LSRGB (ColorToSRGB c2)))) in
  match OKLCH_GamutMappedLSRGB fuel (OKLCH_Lerp o1 o2 v) with
  | Some mapped =>
      Some (LSRGB_SRGB (LSRGB_ClipToGamut (CIEXYZ_LSRGB (OKLAB_CIEXYZ (OKLCH_OKLAB mapped)))))
  | None => None
  end.

End Pipelines.

(** *** HSV and HSL to sRGB *)

Definition hue_sector (hp c x : float32) : float32 * float32 * float32 :=
  if (of_Z 0 <=? hp) && (hp <? of_Z 1) then (c, x, of_Z 0)
  else if (of_Z 1 <=? hp) && (hp <? of_Z 2) then (x, c, of_Z 0)
  else if (of_Z 2 <=? hp) && (hp <? of_Z 3) then (of_Z 0, c, x)
  else if (of_Z 3 <=? hp) && (hp <? of_Z 4) then (of_Z 0, x, c)
  else if (of_Z 4 <=? hp) && (hp <? of_Z 5) then (x, of_Z 0, c)
  else (c, of_Z 0, x).

Definition HSV_SRGB (fuel : nat) (hsv : HSV) : option SRGB :=
  match wrapHue fuel (HSV_H hsv) with
  | None => None
  | Some h =>
      let s := Clamp (HSV_S hsv) (of_Z 0) (of_Z 1) in
      let v := Clamp (HSV_V hsv) (of_Z 0) (of_Z 1) in
      if s <=? epsUnit then Some (mkSRGB v v v)
      else
        let c := v * s in
        let hp := h / of_Z 60 in
        let x := c * (of_Z 1 - math32.Abs (Mod hp (of_Z 2) - of_Z 1)) in
        let '(r1, g1, b1) := hue_sector hp c x in
        let m := v - c in
        Some (SRGB_ClipToGamut (mkSRGB (r1 + m) (g1 + m) (b1 + m)))
  end.

Definition HSL_SRGB (fuel : nat) (hsl : HSL) : option SRGB :=
  match wrapHue fuel (HSL_H hsl) with
  | None => None
  | Some h =>
      let s := Clamp (HSL_S hsl) (of_Z 0) (of_Z 1) in
      let l := Clamp (HSL_L hsl) (of_Z 0) (of_Z 1) in
      if s =? of_Z 0 then Some (mkSRGB l l l)
      else
        let c := (of_Z 1 - math32.Abs (of_Z 2 * l - of_Z 1)) * s in
        let hp := h / of_Z 60 in
        let x := c * (of_Z 1 - math32.Abs (Mod hp (of_Z 2) - of_Z 1)) in
        let '(r1, g1, b1) := hue_sector hp c x in
        let m := l - c / of_Z 2 in
        Some (SRGB_ClipToGamut (mkSRGB (r1 + m) (g1 + m) (b1 + m)))
  end.

End Colorspace.

(** *** From sRGB to HSV and HSL

    SRGB.HSV and SRGB.HSL call none of the imported transcendental or
    scalar functions; [None] when [wrapHue] is still running after
    [fuel] evaluations of a guard. *)

Definition SRGB_HSV (fuel : nat) (c : SRGB) : option HSV :=
  let r := SRGB_R c in
  let g := SRGB_G c in
  let b := SRGB_B c in
  let v := vec_SRGB c in
  let max := ms3.Max v in
  let min := ms3.Min v in
  let delta := max - min in
  let h :=
    if delta =? of_Z 0 then undefinedHue
    else if max =? r then of_Z 60 * ((g - b) / delta)
    else if max =? g then of_Z 60 * ((b - r) / delta + of_Z 2)
    else of_Z 60 * ((r - g) / delta + of_Z 4) in
  match wrapHue fuel h with
  | None => None
  | Some h =>
      let s := if max >? of_Z 0 then delta / max else of_Z 0 in
      Some (mkHSV h s max)
  end.

Definition SRGB_HSL (fuel : nat) (c : SRGB) : option HSL :=
  let v := vec_SRGB c in
  let max := ms3.Max v in
  let min := ms3.Min v in
  let delta := max - min in
  let l := dec 5 1 * (max + min) in
  let h :=
    if delta =? of_Z 0 then undefinedHue
    else if max =? SRGB_R c then of_Z 60 * ((SRGB_G c - SRGB_B c) / delta)
    else if max =? SRGB_G c then of_Z 60 * ((SRGB_B c - SRGB_R c) / delta + of_Z 2)
    else of_Z 60 * ((SRGB_R c - SRGB_G c) / delta + of_Z 4) in
  match wrapHue fuel h with
  | None => None
  | Some h =>
      let s :=
        if delta =? of_Z 0 then of_Z 0
        else if l <=? dec 5 1 then delta / (max + min)
        else delta / (of_Z 2 - max - min) in
      Some (mkHSL h s l)
  end.

(** [c.HSV().SRGB()] and [c.HSL().SRGB()]. *)
Definition SRGB_via_HSV {M : Math32} {K : MS1} (fuel : nat) (c : SRGB) : option SRGB :=
  match SRGB_HSV fuel c with
  | Some hsv => HSV_SRGB fuel hsv
  | None => None
  end.

Definition SRGB_via_HSL {M : Math32} {K : MS1} (fuel : nat) (c : SRGB) : option SRGB :=
  match SRGB_HSL fuel c with
  | Some hsl => HSL_SRGB fuel hsl
  | None => None
  end.


(** ** The earlier revision of color.go

    The second text of color.go is an older revision of the package.
    Where a function has the same body in both revisions (the matrices,
    the transfer functions, OKLCH.OKLAB, the gamut search below the
    lightness guard, ...) the definition above stands for both; below
    are the functions of the interpolation and of the gamut mapper whose
    bodies differ. *)

Module Legacy.
Section Colorspace.
Context {M : Math32} {K : MS1}.

(** CIELCH.CIELAB: sine on A, cosine on B. *)
Definition CIELCH_CIELAB (c : CIELCH) : CIELAB :=
  let '(sin, cos) := Sincos (CIELCH_H c * math32.Pi / of_Z 180) in
  mkCIELAB (CIELCH_L c) (CIELCH_C c * sin) (CIELCH_C c * cos).

(** OKLCH.AutoGamutMapping, the older name of the gamut mapper: the
    guard tests [L > 100]. *)
Definition OKLCH_AutoGamutMapping (fuel : nat) (c : OKLCH) : option OKLCH :=
  let origin := c in
  if (OKLCH_L origin <? of_Z 0) || (OKLCH_L origin >? of_Z 100) then
    Some (mkOKLCH (math32.Min (math32.Max (OKLCH_L origin) (of_Z 0)) (of_Z 1))
                  (of_Z 0) (of_Z 0))
  else gm_search fuel origin.

(** The hue blend written out in CIELCH.Lerp. *)
Definition lerp_hue (fromH toH v : float32) : float32 :=
  let Hdelta := toH - fromH in
  let Hdelta :=
    if Hdelta >? of_Z 180 then Hdelta - of_Z 360
    else if Hdelta <? of_Z (-180) then Hdelta + of_Z 360
    else Hdelta in
  let H := fromH + v * Hdelta in
  if H >? of_Z 360 then H - of_Z 360
  else if H <? of_Z 0 then H + of_Z 360
  else H.

Definition CIELCH_Lerp (from to : CIELCH) (v : float32) : CIELCH :=
  let eps := dec 4 6 in
  let fromPowerless := CIELCH_C from <? eps in
  let toPowerless := CIELCH_C to <? eps in
  let blend := fun from to : CIELCH =>
    mkCIELCH (Interp (CIELCH_L from) (CIELCH_L to) v)
             (Interp (CIELCH_C from) (CIELCH_C to) v)
             (lerp_hue (CIELCH_H from) (CIELCH_H to) v) in
  if fromPowerless || toPowerless then
    if fromPowerless && toPowerless then
      mkCIELCH (Interp (CIELCH_L from) (CIELCH_L to) v) (of_Z 0) undefinedHue
    else if negb toPowerless then
      blend (CIELCH_with_H from (CIELCH_H to)) to
    else
      blend from (CIELCH_with_H to (CIELCH_H from))
  else blend from to.

Definition OKLCH_Lerp (from to : OKLCH) (v : float32) : OKLCH :=
  OKLCH_of_CIELCH (CIELCH_Lerp (CIELCH_of_OKLCH from) (CIELCH_of_OKLCH to) v).

End Colorspace.
(** SRGB.RGBA: the product is truncated, without the rounding term. *)
Definition SRGB_RGBA (c : SRGB)
  : option uint32 * option uint32 * option uint32 * uint32 :=
  (uint32_of_float32 (SRGB_R c * of_Z 65535),
   uint32_of_float32 (SRGB_G c * of_Z 65535),
   uint32_of_float32 (SRGB_B c * of_Z 65535),
   65535%Z).

End Legacy.

(** ** Concrete packages, to run the code on concrete inputs

    [ms1_model]: clamp by comparison, GLSL's mix for [Interp], and for
    [InterpWrap] the hue blend that the earlier revision of CIELCH.Lerp
    writes out, with 360 replaced by the wrap width [w].  It is not the
    source of package ms1, which is not in src: it is one [MS1] on
    which statements that hold for every [MS1] can be run. *)

Definition ms1_model : MS1 := {|
  Clamp := fun v lo hi => if v <? lo then lo else if v >? hi then hi else v;
  Interp := fun x y a => x * (of_Z 1 - a) + y * a;
  InterpWrap := fun w x y a =>
    let delta := y - x in
    let delta :=
      if delta >? w / of_Z 2 then delta - w
      else if delta <? F32.neg (w / of_Z 2) then delta + w
      else delta in
    let r := x + a * delta in
    if r >? w then r - w else if r <? of_Z 0 then r + w else r
|}.

Definition is_one (x : float32) : bool := x =? of_Z 1.

(** [math32_special]: the transcendental functions at the arguments
    where package math fixes the result exactly (zeros, one, the
    infinities, NaN) and NaN at every other argument.  It only serves to
    run, on concrete inputs, statements that hold for every [Math32]. *)

Definition math32_special : Math32 := {|
  Pow := fun x y =>
    if is_zero y then of_Z 1            (* Pow(x, ±0) = 1 *)
    else if is_one x then of_Z 1        (* Pow(1, y) = 1 *)
    else if is_one y then x             (* Pow(x, 1) = x *)
    else NaN;
  Cbrt := fun x =>
    match x with
    | S754_zero _ | S754_infinity _ => x  (* Cbrt(±0) = ±0, Cbrt(±Inf) = ±Inf *)
    | _ => if is_one x then x else NaN
    end;
  Atan2 := fun y x =>
    if is_zero y && (x >=? of_Z 0) then y (* Atan2(±0, x>=0) = ±0 *)
    else NaN;
  Sincos := fun x =>
    if is_zero x then (x, of_Z 1)         (* Sincos(±0) = ±0, 1 *)
    else (NaN, NaN);
  Mod := fun x y =>
    if is_zero x && is_finite y && negb (is_zero y) then x
    else NaN
|}.

(** ** ms1.Interp and ms1.InterpWrap as the specification gives them

    Package ms1 is imported and its source is not part of the
    repository: what the two functions return is not decided by
    color.go.  Where a statement needs their values, they are the ones
    that section 4.2 of the specification describes. *)

(** Modelled from the spec: ms1.Interp, of the imported package
    github.com/soypat/geometry/ms1, which is not in src.  Section 4.2:
    "component-wise linear interpolation, result = from + v*(to - from),
    v unconstrained". *)
Definition Interp_spec (from to v : float32) : float32 := from + v * (to - from).

(** The shorter arc: 360 is taken off a delta above 180 and added to a
    delta below -180. *)
Definition shortest_arc (delta : float32) : float32 :=
  if delta >? of_Z 180 then delta - of_Z 360
  else if delta <? of_Z (-180) then delta + of_Z 360
  else delta.

(** Modelled from the spec: ms1.InterpWrap at the width 360 that
    CIELCH.Lerp passes, of the imported package
    github.com/soypat/geometry/ms1, which is not in src.  Section 4.2:
    "hue interpolates along the shorter circular arc: compute raw delta
    to.H - from.H, then if it exceeds +180 subtract 360, if it exceeds
    -180 add 360, apply v*delta, then re-normalize into [0,360)" (the
    second "exceeds" read as "is below").  The re-normalisation adds or
    takes 360 until the hue is in [0,360), as the package's own
    [wrapHue] does; [None] when it is still running after [fuel]
    evaluations of a guard. *)
Definition InterpWrap_spec (fuel : nat) (from to v : float32) : option float32 :=
  wrapHue fuel (from + v * shortest_arc (to - from)).

(** CIELCH.Lerp and OKLCH.Lerp with that hue blend in the place of the
    call [ms1.InterpWrap(360, from.H, to.H, v)]; everything else is the
    body of CIELCH.Lerp as above. *)
Section SpecHue.
Context {K : MS1}.

Definition CIELCH_Lerp_spec_hue (fuel : nat) (from to : CIELCH) (v : float32)
  : option CIELCH :=
  let eps := dec 4 6 in
  let fromPowerless := CIELCH_C from <? eps in
  let toPowerless := CIELCH_C to <? eps in
  let blend := fun from to : CIELCH =>
    match InterpWrap_spec fuel (CIELCH_H from) (CIELCH_H to) v with
    | Some h =>
        Some (mkCIELCH (Interp (CIELCH_L from) (CIELCH_L to) v)
                       (Interp (CIELCH_C from) (CIELCH_C to) v) h)
    | None => None
    end in
  if fromPowerless || toPowerless then
    if fromPowerless && toPowerless then
      Some (mkCIELCH (Interp (CIELCH_L from) (CIELCH_L to) v) (of_Z 0) undefinedHue)
    else if negb toPowerless then
      blend (CIELCH_with_H from (CIELCH_H to)) to     (* from.H = to.H *)
    else
      blend from (CIELCH_with_H to (CIELCH_H from))   (* to.H = from.H *)
  else blend from to.

Definition OKLCH_Lerp_spec_hue (fuel : nat) (from to : OKLCH) (v : float32)
  : option OKLCH :=
  option_map OKLCH_of_CIELCH
    (CIELCH_Lerp_spec_hue fuel (CIELCH_of_OKLCH from) (CIELCH_of_OKLCH to) v).

End SpecHue.


(** [ms1_model] with the Interp of the specification. *)
Definition ms1_spec_interp : MS1 := {|
  Clamp := Clamp (MS1 := ms1_model);
  Interp := Interp_spec;
  InterpWrap := InterpWrap (MS1 := ms1_model)
|}.

(** Go's [==] on two colours: field by field, as floats. *)
Definition OKLCH_eqb (a b : OKLCH) : bool :=
  (OKLCH_L a =? OKLCH_L b) && (OKLCH_C a =? OKLCH_C b) && (OKLCH_H a =? OKLCH_H b).
Definition CIELCH_eqb (a b : CIELCH) : bool :=
  (CIELCH_L a =? CIELCH_L b) && (CIELCH_C a =? CIELCH_C b) && (CIELCH_H a =? CIELCH_H b).
Definition SRGB_eqb (a b : SRGB) : bool :=
  (SRGB_R a =? SRGB_R b) && (SRGB_G a =? SRGB_G b) && (SRGB_B a =? SRGB_B b).
Definition LSRGB_eqb (a b : LSRGB) : bool :=
  (LSRGB_R a =? LSRGB_R b) && (LSRGB_G a =? LSRGB_G b) && (LSRGB_B a =? LSRGB_B b).
Definition CIEXYZ_eqb (a b : CIEXYZ) : bool :=
  (CIEXYZ_X a =? CIEXYZ_X b) && (CIEXYZ_Y a =? CIEXYZ_Y b) && (CIEXYZ_Z a =? CIEXYZ_Z b).
Definition CIELAB_eqb (a b : CIELAB) : bool :=
  (CIELAB_L a =? CIELAB_L b) && (CIELAB_A a =? CIELAB_A b) && (CIELAB_B a =? CIELAB_B b).
Definition OKLAB_eqb (a b : OKLAB) : bool :=
  (OKLAB_L a =? OKLAB_L b) && (OKLAB_A a =? OKLAB_A b) && (OKLAB_B a =? OKLAB_B b).

(** ** Sample inputs *)

Definition black : RGBA64 := mkRGBA64 0 0 0 65535.
Definition white : RGBA64 := mkRGBA64 65535 65535 65535 65535.

Definition srgb_black : SRGB := mkSRGB (of_Z 0) (of_Z 0) (of_Z 0).
Definition srgb_dark_grey : SRGB := mkSRGB (dec 3 2) (dec 3 2) (dec 3 2).
Definition srgb_sample : SRGB := mkSRGB (dec 5 1) (dec 25 2) (of_Z 1).

(** -1e10, a float32: 1e10 = 9765625 * 2^10. *)
Definition hue_absorbed : float32 := of_Z (-10000000000).

Definition oklch_infinite_chroma : OKLCH := mkOKLCH (dec 5 1) pInf (of_Z 0).
Definition oklch_too_light : OKLCH := mkOKLCH (dec 15 1) (dec 3 1) (of_Z 120).
(** chroma 1e-6, below the 4e-6 of CIELCH.Lerp *)
Definition oklch_faint : OKLCH := mkOKLCH (dec 5 1) (dec 1 6) (of_Z 0).
Definition oklch_hue350 : OKLCH := mkOKLCH (dec 7 1) (dec 1 1) (of_Z 350).
Definition oklch_hue10 : OKLCH := mkOKLCH (dec 7 1) (dec 1 1) (of_Z 10).
(** chroma 0.001: below the 0.0015 of CIELAB.CIELCH, above the 4e-6 of
    CIELCH.Lerp; its hue is the sentinel that CIELAB.CIELCH gives it. *)
Definition cielch_greyish : CIELCH := mkCIELCH (of_Z 50) (dec 1 3) undefinedHue.
Definition cielch_vivid : CIELCH := mkCIELCH (of_Z 50) (of_Z 50) (of_Z 200).
Definition cielch_grey : CIELCH := mkCIELCH (of_Z 50) (of_Z 0) undefinedHue.
(** chroma 0.001, as a CIELAB colour: CIELAB.CIELCH gives [cielch_greyish]. *)
Definition cielab_greyish : CIELAB := mkCIELAB (of_Z 50) (dec 1 3) (of_Z 0).
Definition oklch_hue400 : OKLCH := mkOKLCH (dec 7 1) (dec 1 1) (of_Z 400).
Definition srgb_infinite : SRGB := mkSRGB pInf (of_Z 0) (of_Z 0).

(** ** Canonical data and bounded checks

    [valid x]: [x] is a binary32 datum as the machine holds one, with
    a mantissa of exactly 24 bits, or of fewer at the least exponent,
    and an exponent in range. *)
Definition valid (x : float32) : Prop := valid_binary prec emax x = true.

(** The same datum, bit for bit ([=?] equates the two zeros and no NaN). *)
Definition same_float (x y : float32) : bool :=
  match x, y with
  | S754_zero s, S754_zero t => Bool.eqb s t
  | S754_infinity s, S754_infinity t => Bool.eqb s t
  | S754_nan, S754_nan => true
  | S754_finite s m e, S754_finite t n f =>
      Bool.eqb s t && Pos.eqb m n && BinInt.Z.eqb e f
  | _, _ => false
  end.

(** [p] at the [n] consecutive integers from [z] on. *)
Fixpoint all_from (n : nat) (z : BinNums.Z) (p : BinNums.Z -> bool) : bool :=
  match n with
  | O => true
  | Datatypes.S k => if p z then all_from k (z + 1)%Z p else false
  end.

Definition yields (o : option uint32) (r : uint32) : bool :=
  match o with
  | Some x => BinInt.Z.eqb x r
  | None => false
  end.

(** One 16-bit channel [r] through ColorToSRGB: the float is in [0,1],
    SRGB.RGBA of either revision reads [r] back from it, and half the
    float added to itself is the float. *)
Definition channel_round_trip (r : uint32) : bool :=
  let x := of_Z r / of_Z 65535 in
  (x <=? of_Z 1) && (x >=? of_Z 0)
  && yields (uint32_of_float32 (x * of_Z 65535 + dec 5 1)) r
  && yields (uint32_of_float32 (x * of_Z 65535)) r
  && same_float (dec 5 1 * (x + x)) x.

(** One 16-bit channel [r] through ColorToSRGB, the linear segment of
    [transferFunc], the linear segment of [invTransferFunc] and
    SRGB.RGBA. *)
Definition channel_linear_round_trip (r : uint32) : bool :=
  let x := of_Z r / of_Z 65535 in
  (math32.Abs x <=? dec 4045 5)
  && (math32.Abs (x / dec 1292 2) <=? dec 31308 7)
  && yields (uint32_of_float32
               (dec 1292 2 * (x / dec 1292 2) * of_Z 65535 + dec 5 1)) r.

(** ** Further sample inputs *)

Definition oklab_sample : OKLAB := mkOKLAB (dec 5 1) (dec 1 1) (dec (-2) 1).
Definition oklab_nan_b : OKLAB := mkOKLAB (dec 5 1) (of_Z 0) NaN.
Definition oklch_black : OKLCH := mkOKLCH (of_Z 0) (of_Z 0) (of_Z 0).
Definition lsrgb_sample : LSRGB := mkLSRGB (dec 5 1) (of_Z 0) (of_Z 1).
Definition pixel_sample : RGBA64 := mkRGBA64 0 32768 65535 65535.
Definition dark_pixel : RGBA64 := mkRGBA64 0 1000 2650 65535.
Definition grey_pixel : RGBA64 := mkRGBA64 32768 32768 32768 65535.

(** wrapHue on the whole number of degrees [k], given 11 evaluations of
    each guard: it returns [k] reduced into [0, 360). *)
Definition wrapHue_degrees_check (k : BinNums.Z) : bool :=
  match wrapHue 11 (of_Z k) with
  | Some h => same_float h (of_Z (k mod 360))
  | None => false
  end.

(** Closed goals on concrete floats are settled by evaluation. *)
Ltac by_computation := vm_compute; reflexivity.

(** * Properties *)

(** ** Loops that never leave *)

Lemma for_loop_invariant_diverges {S R : Type} (cond : S -> bool)
    (body : S -> step S R) (inv : S -> Prop) :
  (forall s, inv s -> cond s = true /\ exists s', body s = Continue s' /\ inv s') ->
  forall fuel s, inv s -> for_loop fuel cond body s = None.
Proof.
  intros Hstep fuel.
  induction fuel as [|n IH]; intros s Hs; simpl.
  - reflexivity.
  - destruct (Hstep s Hs) as [Hc [s' [Hb Hs']]].
    rewrite Hc, Hb. apply IH. exact Hs'.
Qed.

Lemma while_fixed_point_diverges {S : Type} (cond : S -> bool) (body : S -> S) (s : S) :
  cond s = true -> body s = s -> forall fuel, while fuel cond body s = None.
Proof.
  intros Hc Hb fuel. unfold while.
  rewrite (@for_loop_invariant_diverges S Empty_set cond
             (fun s => Continue (body s)) (fun t => t = s)); trivial.
  intros t ->. split; [exact Hc|]. exists s. rewrite Hb. split; reflexivity.
Qed.

(** ** Infinities and NaN propagate through the arithmetic *)

Section Nonfinite.

Lemma mul_nonfinite_l x y : nonfinite x = true -> nonfinite (x * y) = true.
Proof. destruct x; try discriminate; destruct y; reflexivity. Qed.

Lemma mul_nonfinite_r x y : nonfinite y = true -> nonfinite (x * y) = true.
Proof. destruct y; try discriminate; destruct x; reflexivity. Qed.

Lemma add_nonfinite_l x y : nonfinite x = true -> nonfinite (x + y) = true.
Proof.
  destruct x as [|[]| |]; try discriminate; destruct y as [|[]| |]; reflexivity.
Qed.

Lemma add_nonfinite_r x y : nonfinite y = true -> nonfinite (x + y) = true.
Proof.
  destruct y as [|[]| |]; try discriminate; destruct x as [|[]| |]; reflexivity.
Qed.

Lemma sub_nonfinite_l x y : nonfinite x = true -> nonfinite (x - y) = true.
Proof.
  destruct x as [|[]| |]; try discriminate; destruct y as [|[]| |]; reflexivity.
Qed.

Lemma sub_nonfinite_r x y : nonfinite y = true -> nonfinite (x - y) = true.
Proof.
  destruct y as [|[]| |]; try discriminate; destruct x as [|[]| |]; reflexivity.
Qed.

(** The square root of an infinity or a NaN is +Inf or NaN, and neither
    is below a number. *)
Lemma sqrt_nonfinite_not_below d bound :
  nonfinite d = true -> (math32.Sqrt d <? bound) = false.
Proof.
  destruct d as [|[]| |]; try discriminate; intros _;
    destruct bound as [|[]| |]; reflexivity.
Qed.

Lemma nonfinite_outside_unit x :
  nonfinite x = true -> ((x <=? of_Z 1) && (x >=? of_Z 0))%bool = false.
Proof. destruct x as [|[]| |]; try discriminate; reflexivity. Qed.

(** A matrix applied to a vector with a non-finite component: the
    first component of the product is non-finite (so are the others). *)
Lemma MulMatVec_nonfinite m v :
  nonfinite (ms3.X v) = true \/ nonfinite (ms3.Y v) = true \/ nonfinite (ms3.Z v) = true ->
  nonfinite (ms3.X (ms3.MulMatVec m v)) = true.
Proof.
  intros H. unfold ms3.MulMatVec; cbn [ms3.X].
  destruct H as [H|[H|H]].
  - apply add_nonfinite_l, add_nonfinite_l, mul_nonfinite_l, H.
  - apply add_nonfinite_l, add_nonfinite_r, mul_nonfinite_l, H.
  - apply add_nonfinite_r, mul_nonfinite_l, H.
Qed.

Lemma Dot_nonfinite e : nonfinite (ms3.Y e) = true -> nonfinite (ms3.Dot e e) = true.
Proof.
  intros H. unfold ms3.Dot.
  apply add_nonfinite_l, add_nonfinite_r, mul_nonfinite_l, H.
Qed.

Lemma midpoint_zero_infinity : dec 5 1 * (of_Z 0 + pInf) = pInf.
Proof. by_computation. Qed.

Lemma infinite_interval_is_wide : (pInf - of_Z 0 >? dec 1 4) = true.
Proof. by_computation. Qed.

End Nonfinite.

(** ** Infinite chroma through the conversions *)

Section InfiniteChroma.
Context {M : Math32} {K : MS1}.

Lemma OKLCH_OKLAB_infinite_chroma c :
  OKLCH_C c = pInf -> nonfinite (OKLAB_A (OKLCH_OKLAB c)) = true.
Proof.
  intros HC. unfold OKLCH_OKLAB.
  destruct (Sincos (OKLCH_H c * math32.Pi / of_Z 180)) as [sin cos].
  cbn [OKLAB_A]. rewrite HC. apply mul_nonfinite_l. reflexivity.
Qed.

Lemma OKLAB_CIEXYZ_nonfinite c :
  nonfinite (OKLAB_A c) = true -> nonfinite (CIEXYZ_X (OKLAB_CIEXYZ c)) = true.
Proof.
  intros HA. unfold OKLAB_CIEXYZ. cbv zeta. cbn [CIEXYZ_X].
  apply MulMatVec_nonfinite. left. cbn [ms3.X].
  apply mul_nonfinite_l, mul_nonfinite_l, MulMatVec_nonfinite.
  right; left. exact HA.
Qed.

Lemma CIEXYZ_LSRGB_nonfinite c :
  nonfinite (CIEXYZ_X c) = true -> nonfinite (LSRGB_R (CIEXYZ_LSRGB c)) = true.
Proof.
  intros HX. unfold CIEXYZ_LSRGB. cbv zeta. cbn [LSRGB_R].
  apply MulMatVec_nonfinite. left. exact HX.
Qed.

Lemma LSRGB_InGamut_nonfinite c :
  nonfinite (LSRGB_R c) = true -> LSRGB_InGamut c = false.
Proof.
  intros HR. unfold LSRGB_InGamut.
  pose proof (nonfinite_outside_unit _ HR) as H.
  destruct (LSRGB_R c <=? of_Z 1); [|reflexivity].
  cbn [andb] in H. rewrite H.
  destruct (LSRGB_G c <=? of_Z 1), (LSRGB_B c <=? of_Z 1); reflexivity.
Qed.

(** A colour of infinite chroma is out of gamut, whatever sine and
    cosine its hue has. *)
Lemma infinite_chroma_out_of_gamut c :
  OKLCH_C c = pInf ->
  LSRGB_InGamut (CIEXYZ_LSRGB (OKLAB_CIEXYZ (OKLCH_OKLAB c))) = false.
Proof.
  intros HC.
  apply LSRGB_InGamut_nonfinite, CIEXYZ_LSRGB_nonfinite, OKLAB_CIEXYZ_nonfinite,
    OKLCH_OKLAB_infinite_chroma, HC.
Qed.

Lemma DeltaE_nonfinite_sample reference sample bound :
  nonfinite (OKLAB_A sample) = true -> (OKLAB_DeltaE reference sample <? bound) = false.
Proof.
  intros H. unfold OKLAB_DeltaE. cbv zeta.
  apply sqrt_nonfinite_not_below, Dot_nonfinite. cbn [ms3.Sub ms3.Y vec_OKLAB].
  apply sub_nonfinite_r, H.
Qed.

Lemma DeltaE_nonfinite_reference reference sample bound :
  nonfinite (OKLAB_A reference) = true -> (OKLAB_DeltaE reference sample <? bound) = false.
Proof.
  intros H. unfold OKLAB_DeltaE. cbv zeta.
  apply sqrt_nonfinite_not_below, Dot_nonfinite. cbn [ms3.Sub ms3.Y vec_OKLAB].
  apply sub_nonfinite_l, H.
Qed.

(** One iteration of the search at [cmin = 0], [cmax = +Inf]: the
    midpoint is +Inf again and the upper bound is set to it. *)
Lemma gm_body_infinite s :
  gm_cmin s = of_Z 0 -> gm_cmax s = pInf ->
  gm_cond s = true /\
  exists s', gm_body s = Continue s' /\ gm_cmin s' = of_Z 0 /\ gm_cmax s' = pInf.
Proof.
  intros Hmin Hmax. split.
  - unfold gm_cond, gm_eps. rewrite Hmin, Hmax. exact infinite_interval_is_wide.
  - unfold gm_body. rewrite Hmin, Hmax, midpoint_zero_infinity. cbv zeta.
    set (current := mkOKLCH (OKLCH_L (gm_current s)) pInf (OKLCH_H (gm_current s))).
    assert (HC : OKLCH_C current = pInf) by reflexivity.
    rewrite (infinite_chroma_out_of_gamut current HC).
    rewrite andb_false_r.
    rewrite (DeltaE_nonfinite_sample _ _ JND (OKLCH_OKLAB_infinite_chroma current HC)).
    eexists. split; [reflexivity|]. split; reflexivity.
Qed.

Lemma gm_loop_infinite fuel s :
  gm_cmin s = of_Z 0 -> gm_cmax s = pInf -> for_loop fuel gm_cond gm_body s = None.
Proof.
  intros Hmin Hmax.
  apply (for_loop_invariant_diverges gm_cond gm_body
           (fun s => gm_cmin s = of_Z 0 /\ gm_cmax s = pInf)); [|split; assumption].
  intros t [H1 H2]. destruct (gm_body_infinite t H1 H2) as [Hc [s' [Hb [H1' H2']]]].
  split; [exact Hc|]. exists s'. repeat split; assumption.
Qed.

Lemma gm_search_infinite fuel c :
  OKLCH_C c = pInf -> gm_search fuel c = None.
Proof.
  intros HC. unfold gm_search. cbv zeta.
  rewrite (DeltaE_nonfinite_reference _ _ JND (OKLCH_OKLAB_infinite_chroma c HC)).
  rewrite gm_loop_infinite; [reflexivity|reflexivity|exact HC].
Qed.

End InfiniteChroma.

(** ** What the search does on every input *)

Section Search.
Context {M : Math32} {K : MS1}.

(** An iteration that does not return moves one bound to the midpoint
    [0.5 * (cmin + cmax)] and leaves the other. *)
Lemma gm_body_bisects s s' :
  gm_body s = Continue s' ->
  (gm_cmin s' = dec 5 1 * (gm_cmin s + gm_cmax s) /\ gm_cmax s' = gm_cmax s) \/
  (gm_cmin s' = gm_cmin s /\ gm_cmax s' = dec 5 1 * (gm_cmin s + gm_cmax s)).
Proof.
  unfold gm_body. cbv zeta.
  repeat match goal with
         | |- context [if ?b then _ else _] => destruct b
         end;
    intros [= <-]; cbn [gm_cmin gm_cmax]; auto.
Qed.

Lemma gm_loop_returns_clipped fuel :
  forall s, (exists rgb, gm_clipped s = LSRGB_ClipToGamut rgb) ->
  match for_loop fuel gm_cond gm_body s with
  | Some (Returned r) => exists rgb, r = clipped_OKLCH rgb
  | Some (Exit s') => exists rgb, gm_clipped s' = LSRGB_ClipToGamut rgb
  | None => True
  end.
Proof.
  induction fuel as [|n IH]; intros s Hs; cbn [for_loop]; [exact I|].
  destruct (gm_cond s); [|exact Hs].
  destruct (gm_body s) as [s'|r] eqn:Hb.
  - apply IH. revert Hb. unfold gm_body. cbv zeta.
    repeat match goal with
           | |- context [if ?b then _ else _] => destruct b
           end;
      intros [= <-]; cbn [gm_clipped]; eauto.
  - revert Hb. unfold gm_body. cbv zeta.
    repeat match goal with
           | |- context [if ?b then _ else _] => destruct b
           end;
      intros [= <-]. eexists. reflexivity.
Qed.

(** Whenever the mapper returns below its lightness guard, what it
    returns is the OKLCH form of a colour clipped into the gamut. *)
Lemma gm_search_returns_clipped fuel c out :
  gm_search fuel c = Some out -> exists rgb, out = clipped_OKLCH rgb.
Proof.
  unfold gm_search. cbv zeta.
  match goal with |- context [if ?b then _ else _] => destruct b end.
  - intros [= <-]. eexists. reflexivity.
  - match goal with |- context [for_loop fuel gm_cond gm_body ?s0] =>
      pose proof (gm_loop_returns_clipped fuel s0) as H;
      destruct (for_loop fuel gm_cond gm_body s0) as [[s'|r]|]
    end.
    + intros [= <-]. destruct H as [rgb Hrgb]; [eexists; reflexivity|].
      rewrite Hrgb. eexists. reflexivity.
    + intros [= <-]. apply H. eexists. reflexivity.
    + discriminate.
Qed.

End Search.

(** ** Comparison facts *)

Lemma SFcompare_antisym (x y : float32) :
  SFcompare y x = option_map CompOpp (SFcompare x y).
Proof.
  destruct x as [sx|sx| |sx mx ex], y as [sy|sy| |sy my ey]; cbn [SFcompare option_map];
    try reflexivity;
    try (destruct sx; reflexivity);
    try (destruct sy; reflexivity);
    try (destruct sx, sy; reflexivity).
  destruct sx, sy; cbn [CompOpp]; try reflexivity;
    rewrite (Z.compare_antisym ex ey); destruct (ex ?= ey)%Z; cbn [CompOpp]; try reflexivity.
  - exact (f_equal (fun c => Some (CompOpp c))
             (eq_sym (Pos.compare_cont_antisym mx my Eq))).
  - exact (f_equal Some (eq_sym (Pos.compare_cont_antisym mx my Eq))).
Qed.

Lemma ltb_asym x y : (x <? y) = true -> (y <? x) = false.
Proof.
  unfold F32.ltb, SFltb. rewrite (SFcompare_antisym x y).
  destruct (SFcompare x y) as [[]|]; cbn; congruence.
Qed.

Lemma leb_not_gtb x y : (x <=? y) = true -> (x >? y) = false.
Proof.
  unfold F32.leb, F32.gtb, SFleb, SFltb. rewrite (SFcompare_antisym x y).
  destruct (SFcompare x y) as [[]|]; cbn; congruence.
Qed.

Lemma of_Z_0 : of_Z 0 = S754_zero false.
Proof. reflexivity. Qed.

Lemma of_Z_1 : of_Z 1 = S754_finite false 8388608 (-23).
Proof. by_computation. Qed.

(** [math32.Min(math32.Max(l, 0), 1)] at a lightness below 0 or above 1. *)
Lemma clamp_lightness_below l :
  (l <? of_Z 0) = true -> math32.Min (math32.Max l (of_Z 0)) (of_Z 1) = of_Z 0.
Proof.
  rewrite of_Z_1, of_Z_0.
  destruct l as [s|[]| |[] m e]; try discriminate; intros _; reflexivity.
Qed.

Lemma clamp_lightness_above l :
  (l >? of_Z 1) = true -> math32.Min (math32.Max l (of_Z 0)) (of_Z 1) = of_Z 1.
Proof.
  intros H. pose proof (ltb_asym _ _ H) as H'. revert H H'.
  rewrite of_Z_1, of_Z_0. unfold F32.gtb.
  destruct l as [s|[]| |[] m e]; try discriminate; intros H H'; try reflexivity.
  unfold math32.Max, math32.Min.
  change (S754_finite false m e >? S754_zero false) with true. cbv iota.
  rewrite H'. reflexivity.
Qed.

(** ** wrapHue *)

(** On ordinary hues the two loops do what the comment says. *)
Example wrapHue_minus_30 : wrapHue 2 (of_Z (-30)) = Some (of_Z 330).
Proof. by_computation. Qed.

Example wrapHue_725 : wrapHue 3 (of_Z 725) = Some (of_Z 5).
Proof. by_computation. Qed.

Example wrapHue_360 : wrapHue 2 (of_Z 360) = Some (of_Z 0).
Proof. by_computation. Qed.

(** C10 (violated by the code).  wrapHue is written to normalise every
    hue into [0,360), and HSV.SRGB and HSL.SRGB begin by calling it.
    At the finite hue -1e10 the sum [h + 360] rounds back to [h]: the
    first loop, [for h < 0 { h += 360 }], never changes its variable, so
    wrapHue returns nothing however many iterations it is given, and
    neither do HSV.SRGB and HSL.SRGB. *)
Theorem wrapHue_absorbed_hue_never_returns (M : Math32) (K : MS1)
    (fuel : nat) (s v : float32) :
  is_finite hue_absorbed = true /\
  (hue_absorbed <? of_Z 0) = true /\
  hue_absorbed + of_Z 360 = hue_absorbed /\
  wrapHue fuel hue_absorbed = None /\
  HSV_SRGB fuel (mkHSV hue_absorbed s v) = None /\
  HSL_SRGB fuel (mkHSL hue_absorbed s v) = None.
Proof.
  set (h := hue_absorbed).
  assert (Hlt : (h <? of_Z 0) = true) by by_computation.
  assert (Hfix : h + of_Z 360 = h) by by_computation.
  assert (Hw : wrapHue fuel h = None).
  { unfold wrapHue.
    rewrite (while_fixed_point_diverges (fun h => h <? of_Z 0)
               (fun h => h + of_Z 360) Hlt Hfix fuel).
    reflexivity. }
  repeat split; trivial.
  - unfold HSV_SRGB. cbn [HSV_H]. rewrite Hw. reflexivity.
  - unfold HSL_SRGB. cbn [HSL_H]. rewrite Hw. reflexivity.
Qed.

(** ** The gamut mapper *)

(** On black the clip test accepts at once: no iteration is needed. *)
Example GamutMappedLSRGB_black :
  OKLCH_GamutMappedLSRGB (M := math32_special) (K := ms1_model) 0
    (mkOKLCH (of_Z 0) (of_Z 0) (of_Z 0))
  = Some (mkOKLCH (of_Z 0) (of_Z 0) (of_Z 0)).
Proof. by_computation. Qed.

(** C2 (violated by the code).  The binary search is meant to halve
    [cmax - cmin] on every iteration and to stop below 1e-4.  With an
    original chroma of +Inf the midpoint [0.5 * (0 + Inf)] is +Inf
    again, the colour at that chroma is out of gamut and infinitely far
    from its clip whatever the sine and cosine of the hue are, and the
    upper bound is set to the midpoint: the interval is the same after
    the iteration and the loop never exits. *)
Theorem gamut_search_infinite_chroma_never_exits (M : Math32) (K : MS1)
    (fuel : nat) (minInGamut : bool) (current : OKLCH) (clipped : LSRGB)
    (E : float32) :
  gm_cond (mkGm (of_Z 0) pInf minInGamut current clipped E) = true /\
  (exists s', gm_body (mkGm (of_Z 0) pInf minInGamut current clipped E) = Continue s' /\
              gm_cmin s' = of_Z 0 /\ gm_cmax s' = pInf) /\
  for_loop fuel gm_cond gm_body (mkGm (of_Z 0) pInf minInGamut current clipped E) = None.
Proof.
  set (s := mkGm (of_Z 0) pInf minInGamut current clipped E).
  destruct (gm_body_infinite s eq_refl eq_refl) as [Hc [s' [Hb [H1 H2]]]].
  split; [exact Hc|]. split.
  - exists s'. repeat split; assumption.
  - apply gm_loop_infinite; reflexivity.
Qed.

(** C1 (violated by the code).  The mapper is to produce, for every
    input of lightness in [0,1], an output that is in gamut or within
    the JND of the direct clip.  At an input of lightness in [0,1] and
    chroma +Inf it produces no output at all: the clip test fails and
    the search never returns. *)
Theorem GamutMappedLSRGB_infinite_chroma_no_output (M : Math32) (K : MS1)
    (fuel : nat) (c : OKLCH) :
  (of_Z 0 <=? OKLCH_L c) = true ->
  (OKLCH_L c <=? of_Z 1) = true ->
  OKLCH_C c = pInf ->
  OKLCH_GamutMappedLSRGB fuel c = None.
Proof.
  intros H0 H1 HC. unfold OKLCH_GamutMappedLSRGB. cbv zeta.
  assert (Hlo : (OKLCH_L c <? of_Z 0) = false).
  { apply (leb_not_gtb _ _ H0). }
  rewrite Hlo, (leb_not_gtb _ _ H1). cbn [orb].
  apply gm_search_infinite, HC.
Qed.

Lemma GamutMappedLSRGB_infinite_chroma_no_output_witness :
  (of_Z 0 <=? OKLCH_L oklch_infinite_chroma) = true /\
  (OKLCH_L oklch_infinite_chroma <=? of_Z 1) = true /\
  OKLCH_C oklch_infinite_chroma = pInf /\
  OKLCH_GamutMappedLSRGB (M := math32_special) (K := ms1_model) 1000
    oklch_infinite_chroma = None.
Proof.
  set (c := oklch_infinite_chroma).
  assert (H0 : (of_Z 0 <=? OKLCH_L c) = true) by by_computation.
  assert (H1 : (OKLCH_L c <=? of_Z 1) = true) by by_computation.
  split; [exact H0|]. split; [exact H1|]. split; [reflexivity|].
  exact (GamutMappedLSRGB_infinite_chroma_no_output math32_special ms1_model
           1000 c H0 H1 eq_refl).
Defined.

(** C3.  When the lightness is below 0 or above 1, GamutMappedLSRGB
    returns at once: lightness 0 or 1 respectively (the value clamped
    into [0,1]), chroma 0 and hue 0.  The result is the same for every
    implementation of the transcendental functions and of the clip, and
    for every amount of fuel: neither the clip test nor the search
    runs. *)
Theorem GamutMappedLSRGB_lightness_out_of_range (M : Math32) (K : MS1)
    (fuel : nat) (c : OKLCH) :
  ((OKLCH_L c <? of_Z 0) || (OKLCH_L c >? of_Z 1))%bool = true ->
  OKLCH_GamutMappedLSRGB fuel c =
    Some (mkOKLCH (if OKLCH_L c <? of_Z 0 then of_Z 0 else of_Z 1) (of_Z 0) (of_Z 0)).
Proof.
  intros H. unfold OKLCH_GamutMappedLSRGB. cbv zeta. rewrite H.
  destruct (OKLCH_L c <? of_Z 0) eqn:Hlo.
  - rewrite (clamp_lightness_below _ Hlo). reflexivity.
  - cbn [orb] in H. rewrite (clamp_lightness_above _ H). reflexivity.
Qed.

Lemma GamutMappedLSRGB_lightness_out_of_range_witness :
  ((OKLCH_L oklch_too_light <? of_Z 0) || (OKLCH_L oklch_too_light >? of_Z 1))%bool = true /\
  OKLCH_GamutMappedLSRGB (M := math32_special) (K := ms1_model) 0 oklch_too_light =
    Some (mkOKLCH (of_Z 1) (of_Z 0) (of_Z 0)).
Proof.
  set (c := oklch_too_light).
  assert (H : ((OKLCH_L c <? of_Z 0) || (OKLCH_L c >? of_Z 1))%bool = true)
    by by_computation.
  split; [exact H|].
  exact (GamutMappedLSRGB_lightness_out_of_range math32_special ms1_model 0 c H).
Defined.

(** The earlier revision tests [L > 100] instead: a lightness in (1,100]
    goes on to the clip test and the search. *)
Lemma Legacy_AutoGamutMapping_guard (M : Math32) (K : MS1) (fuel : nat) (c : OKLCH) :
  (OKLCH_L c <? of_Z 0) = false -> (OKLCH_L c >? of_Z 100) = false ->
  Legacy.OKLCH_AutoGamutMapping fuel c = gm_search fuel c.
Proof.
  intros H0 H1. unfold Legacy.OKLCH_AutoGamutMapping. cbv zeta.
  rewrite H0, H1. reflexivity.
Qed.

(** Infinite chroma comes out of the package's own conversion: with
    A = 1e20 the square [A*A] overflows and OKLAB.OKLCH returns
    chroma +Inf, whatever Atan2 returns. *)
Lemma OKLAB_OKLCH_overflowing_chroma (M : Math32) (l : float32) :
  OKLCH_C (OKLAB_OKLCH (mkOKLAB l (of_Z (10 ^ 20)) (of_Z 0))) = pInf.
Proof.
  unfold OKLAB_OKLCH. cbv zeta. cbn [OKLCH_C OKLAB_A OKLAB_B].
  vm_compute. reflexivity.
Qed.

(** ** Cylindrical to Cartesian *)

(** C8.  OKLCH.OKLAB and CIELCH.CIELAB put [C * cos] on A and
    [C * sin] on B, the sine and cosine being those that math32.Sincos
    returns for [H * Pi / 180]; the lightness is kept. *)
Theorem cylindrical_to_cartesian_convention (M : Math32) :
  (forall c : OKLCH,
     OKLCH_OKLAB c =
       mkOKLAB (OKLCH_L c)
               (OKLCH_C c * snd (Sincos (OKLCH_H c * math32.Pi / of_Z 180)))
               (OKLCH_C c * fst (Sincos (OKLCH_H c * math32.Pi / of_Z 180)))) /\
  (forall c : CIELCH,
     CIELCH_CIELAB c =
       mkCIELAB (CIELCH_L c)
                (CIELCH_C c * snd (Sincos (CIELCH_H c * math32.Pi / of_Z 180)))
                (CIELCH_C c * fst (Sincos (CIELCH_H c * math32.Pi / of_Z 180)))).
Proof.
  split; intros c.
  - unfold OKLCH_OKLAB.
    destruct (Sincos (OKLCH_H c * math32.Pi / of_Z 180)) as [sin cos]. reflexivity.
  - unfold CIELCH_CIELAB.
    destruct (Sincos (CIELCH_H c * math32.Pi / of_Z 180)) as [sin cos]. reflexivity.
Qed.

(** The earlier revision of CIELCH.CIELAB has the two exchanged. *)
Lemma Legacy_CIELCH_CIELAB_exchanged (M : Math32) (c : CIELCH) :
  CIELAB_A (Legacy.CIELCH_CIELAB c) = CIELAB_B (CIELCH_CIELAB c) /\
  CIELAB_B (Legacy.CIELCH_CIELAB c) = CIELAB_A (CIELCH_CIELAB c).
Proof.
  unfold Legacy.CIELCH_CIELAB, CIELCH_CIELAB.
  destruct (Sincos (CIELCH_H c * math32.Pi / of_Z 180)) as [sin cos].
  split; reflexivity.
Qed.

(** ** Round trips *)

(** The package test's reference: linear red goes to the first column
    of the matrix. *)
Lemma red_CIEXYZ :
  LSRGB_CIEXYZ (mkLSRGB (of_Z 1) (of_Z 0) (of_Z 0)) =
    mkCIEXYZ (of_ratio 41239079926595934 (10 ^ 17))
             (of_ratio 21263900587151027 (10 ^ 17))
             (of_ratio 1933081871559182 (10 ^ 17)).
Proof. by_computation. Qed.

(** C6 (violated by the code).  Black, SRGB{0,0,0}, is a valid sRGB
    colour; its CIEXYZ is {0,0,0}.  Through CIELAB and back the Y
    channel comes out as -16/κ, about -0.0177: where L is at most 8,
    CIELAB.CIEXYZ computes [(116*L - 16)/κ] for Y, while X and Z use
    [(116*f - 16)/κ] on their f values.  A dark grey, SRGB{0.03,0.03,0.03},
    comes back with Y off by more than 0.2.  Both are far above 1e-5. *)
Theorem CIELAB_round_trip_dark_colours (M : Math32) :
  SRGB_InGamut srgb_black = true /\
  LSRGB_CIEXYZ (SRGB_LSRGB srgb_black) = mkCIEXYZ (of_Z 0) (of_Z 0) (of_Z 0) /\
  CIELAB_CIEXYZ (CIEXYZ_CIELAB (LSRGB_CIEXYZ (SRGB_LSRGB srgb_black))) =
    mkCIEXYZ (of_Z 0) (S754_finite true 9509542 (-29)) (of_Z 0) /\
  (math32.Abs
     (CIEXYZ_Y (CIELAB_CIEXYZ (CIEXYZ_CIELAB (LSRGB_CIEXYZ (SRGB_LSRGB srgb_black))))
      - CIEXYZ_Y (LSRGB_CIEXYZ (SRGB_LSRGB srgb_black))) >? dec 1 5) = true /\
  SRGB_InGamut srgb_dark_grey = true /\
  (math32.Abs
     (CIEXYZ_Y (CIELAB_CIEXYZ (CIEXYZ_CIELAB (LSRGB_CIEXYZ (SRGB_LSRGB srgb_dark_grey))))
      - CIEXYZ_Y (LSRGB_CIEXYZ (SRGB_LSRGB srgb_dark_grey))) >? dec 2 1) = true.
Proof. repeat split; by_computation. Qed.

(** ** The pipelines *)

Lemma ColorToSRGB_black : ColorToSRGB black = mkSRGB (of_Z 0) (of_Z 0) (of_Z 0).
Proof. by_computation. Qed.

Lemma ColorToSRGB_white : ColorToSRGB white = mkSRGB (of_Z 1) (of_Z 1) (of_Z 1).
Proof. by_computation. Qed.

(** C9 (violated by the code).  LerpLSRGB, LerpCIEXYZ, LerpOKLAB and
    LerpOKLCH pass their result through ClipToGamut; LerpSRGB returns
    [o1.Lerp(o2, v)] as it is.  From black to white at v = 2, with an
    ms1.Interp that gives 2 there, every channel of the returned colour
    is 2: it is not in [0,1], and its RGBA accessor reports 131070 on
    the colour channels (the alpha is 0xffff). *)
Theorem LerpSRGB_extrapolation_unclipped (K : MS1) :
  Interp (of_Z 0) (of_Z 1) (of_Z 2) = of_Z 2 ->
  LerpSRGB black white (of_Z 2) = mkSRGB (of_Z 2) (of_Z 2) (of_Z 2) /\
  SRGB_InGamut (LerpSRGB black white (of_Z 2)) = false /\
  SRGB_RGBA (LerpSRGB black white (of_Z 2)) =
    (Some 131070%Z, Some 131070%Z, Some 131070%Z, 65535%Z).
Proof.
  intros Hi.
  assert (Hout : LerpSRGB black white (of_Z 2) = mkSRGB (of_Z 2) (of_Z 2) (of_Z 2)).
  { unfold LerpSRGB. cbv zeta. rewrite ColorToSRGB_black, ColorToSRGB_white.
    unfold SRGB_Lerp. cbn [SRGB_R SRGB_G SRGB_B]. rewrite Hi. reflexivity. }
  rewrite Hout. repeat split; vm_compute; reflexivity.
Qed.

Lemma LerpSRGB_extrapolation_unclipped_witness :
  Interp (MS1 := ms1_model) (of_Z 0) (of_Z 1) (of_Z 2) = of_Z 2 /\
  SRGB_InGamut (LerpSRGB (K := ms1_model) black white (of_Z 2)) = false.
Proof.
  assert (Hi : Interp (MS1 := ms1_model) (of_Z 0) (of_Z 1) (of_Z 2) = of_Z 2)
    by by_computation.
  split; [exact Hi|].
  exact (proj1 (proj2 (LerpSRGB_extrapolation_unclipped ms1_model Hi))).
Defined.

(** The other four pipelines end in [ClipToGamut().SRGB()], and the
    alpha reported by SRGB.RGBA is always 0xffff. *)
Lemma pipelines_clip_and_alpha (M : Math32) (K : MS1) (c1 c2 : RGBA64) (v : float32) :
  (exists rgb, LerpLSRGB c1 c2 v = LSRGB_SRGB (LSRGB_ClipToGamut rgb)) /\
  (exists rgb, LerpCIEXYZ c1 c2 v = LSRGB_SRGB (LSRGB_ClipToGamut rgb)) /\
  (forall fuel out, LerpOKLAB fuel c1 c2 v = Some out ->
     exists rgb, out = LSRGB_SRGB (LSRGB_ClipToGamut rgb)) /\
  (forall fuel out, LerpOKLCH fuel c1 c2 v = Some out ->
     exists rgb, out = LSRGB_SRGB (LSRGB_ClipToGamut rgb)) /\
  (forall out : SRGB, snd (SRGB_RGBA out) = 65535%Z).
Proof.
  repeat split.
  - eexists. reflexivity.
  - eexists. reflexivity.
  - intros fuel out. unfold LerpOKLAB. cbv zeta.
    destruct (OKLCH_GamutMappedLSRGB fuel _); [|discriminate].
    intros [= <-]. eexists. reflexivity.
  - intros fuel out. unfold LerpOKLCH. cbv zeta.
    destruct (OKLCH_GamutMappedLSRGB fuel _); [|discriminate].
    intros [= <-]. eexists. reflexivity.
Qed.

(** ** Zeros and signs *)

Lemma sub_diag x : is_finite x = true -> x - x = S754_zero false.
Proof.
  destruct x as [[]|s| |s m e]; try discriminate; intros _; try reflexivity.
  unfold F32.sub, SFsub. rewrite Z.sub_diag. reflexivity.
Qed.

Lemma mul_zero_r v : is_finite v = true -> is_zero (v * S754_zero false) = true.
Proof. destruct v; try discriminate; reflexivity. Qed.

Lemma add_zero_r h z :
  is_finite h = true -> signbit h = false -> is_zero z = true -> h + z = h.
Proof.
  destruct h as [[]|s| |[] m e]; try discriminate; intros _ _;
    destruct z as [[]| | |]; try discriminate; reflexivity.
Qed.

Lemma leb_finite x y : (x <=? y) = true -> is_finite y = true -> signbit x = false ->
  is_finite x = true.
Proof.
  destruct x as [sx|[]| |sx mx ex]; try discriminate; try reflexivity.
  destruct y as [sy|[]| |sy my ey]; discriminate.
Qed.

Lemma nonneg_not_below_zero h : signbit h = false -> (h <? of_Z 0) = false.
Proof. destruct h as [[]|[]| |[] m e]; try discriminate; reflexivity. Qed.

(** ** The hue blend of the earlier revision

    The earlier revision of CIELCH.Lerp writes the hue blend out
    instead of calling ms1.InterpWrap. *)

(** Blending a hue with itself, in the earlier revision: the hue comes
    back as it is, for a hue in [0,360] and a finite parameter. *)
Lemma Legacy_lerp_hue_same h v :
  signbit h = false -> (h <=? of_Z 360) = true -> is_finite v = true ->
  Legacy.lerp_hue h h v = h.
Proof.
  intros Hs Hle Hv.
  assert (Hf : is_finite h = true).
  { apply (leb_finite _ _ Hle); [vm_compute; reflexivity | exact Hs]. }
  unfold Legacy.lerp_hue. rewrite (sub_diag _ Hf).
  change (S754_zero false >? of_Z 180) with false.
  change (S754_zero false <? of_Z (-180)) with false.
  cbv iota zeta.
  rewrite (add_zero_r _ _ Hf Hs (mul_zero_r _ Hv)).
  rewrite (leb_not_gtb _ _ Hle), (nonneg_not_below_zero _ Hs). reflexivity.
Qed.

(** That blend on a few hues: across the 0/360 boundary in both
    directions, and on the two sides of 180. *)
Example hue_350_to_10_quarter :
  Legacy.lerp_hue (of_Z 350) (of_Z 10) (dec 25 2) = of_Z 355.
Proof. by_computation. Qed.

Example hue_350_to_10_three_quarters :
  Legacy.lerp_hue (of_Z 350) (of_Z 10) (dec 75 2) = of_Z 5.
Proof. by_computation. Qed.

Example hue_10_to_350_half :
  Legacy.lerp_hue (of_Z 10) (of_Z 350) (dec 5 1) = of_Z 0.
Proof. by_computation. Qed.

Example hue_0_to_180_half :
  Legacy.lerp_hue (of_Z 0) (of_Z 180) (dec 5 1) = of_Z 90.
Proof. by_computation. Qed.

Example hue_0_to_181_half :
  Legacy.lerp_hue (of_Z 0) (of_Z 181) (dec 5 1) = dec 2705 1.
Proof. by_computation. Qed.

(** From hue 350 to hue 10 at v = 0.5 the earlier revision leaves 360:
    the delta -340 becomes 20, [350 + 0.5*20] is 360, and its last test
    is [H > 360]. *)
Lemma Legacy_Lerp_hue_350_10 :
  OKLCH_H (Legacy.OKLCH_Lerp (K := ms1_model) oklch_hue350 oklch_hue10 (dec 5 1))
    = of_Z 360.
Proof. by_computation. Qed.

(** * Further properties of the code *)

(** ** Negation through the rounding *)

Lemma binary_round_aux_opp s m e l :
  binary_round_aux prec emax (negb s) m e l = F32.neg (binary_round_aux prec emax s m e l).
Proof.
  unfold binary_round_aux.
  destruct (shr_fexp prec emax m e l) as [mrs' e'].
  destruct (shr_fexp prec emax _ e' loc_Exact) as [mrs'' e''].
  destruct (shr_m mrs''); try reflexivity.
  destruct (e'' <=? emax - prec)%Z; reflexivity.
Qed.

Lemma div_neg_l x y : F32.neg x / y = F32.neg (x / y).
Proof.
  destruct x as [sx|sx| |sx mx ex], y as [sy|sy| |sy my ey];
    try reflexivity; try (destruct sx, sy; reflexivity).
  change (F32.neg (S754_finite sx mx ex)) with (S754_finite (negb sx) mx ex).
  unfold F32.div, SFdiv.
  destruct (SFdiv_core_binary prec emax (Zpos mx) ex (Zpos my) ey) as [[mz ez] lz].
  replace (xorb (negb sx) sy) with (negb (xorb sx sy)) by (destruct sx, sy; reflexivity).
  apply binary_round_aux_opp.
Qed.

Lemma mul_neg_l x y : F32.neg x * y = F32.neg (x * y).
Proof.
  destruct x as [sx|sx| |sx mx ex], y as [sy|sy| |sy my ey];
    try reflexivity; try (destruct sx, sy; reflexivity).
  change (F32.neg (S754_finite sx mx ex)) with (S754_finite (negb sx) mx ex).
  unfold F32.mul, SFmul.
  replace (xorb (negb sx) sy) with (negb (xorb sx sy)) by (destruct sx, sy; reflexivity).
  apply binary_round_aux_opp.
Qed.

Lemma mul_neg_r x y : x * F32.neg y = F32.neg (x * y).
Proof.
  destruct x as [sx|sx| |sx mx ex], y as [sy|sy| |sy my ey];
    try reflexivity; try (destruct sx, sy; reflexivity).
  change (F32.neg (S754_finite sy my ey)) with (S754_finite (negb sy) my ey).
  unfold F32.mul, SFmul.
  replace (xorb sx (negb sy)) with (negb (xorb sx sy)) by (destruct sx, sy; reflexivity).
  apply binary_round_aux_opp.
Qed.

Lemma Copysign_neg x v :
  is_nan v = false -> math32.Copysign x (F32.neg v) = F32.neg (math32.Copysign x v).
Proof.
  destruct v as [[]|[]| |[] m e]; try discriminate; intros _;
    unfold math32.Copysign; cbn [signbit F32.neg SFopp negb];
    destruct x as [[]|[]| |[] mx ex]; reflexivity.
Qed.

Lemma Abs_neg v : math32.Abs (F32.neg v) = math32.Abs v.
Proof. destruct v; reflexivity. Qed.

(** X1.  [transferFunc] and [invTransferFunc] are odd: the value at
    [-v] is the opposite, bit for bit, of the value at [v], for every
    [v] that is not a NaN and every implementation of [Pow].  Both
    branches of each function carry the sign outside the rounding: the
    linear one by dividing or multiplying [v] itself, the power one
    through [Copysign(1, v)]. *)
Theorem transfer_functions_odd (M : Math32) (v : float32) :
  is_nan v = false ->
  transferFunc (F32.neg v) = F32.neg (transferFunc v) /\
  invTransferFunc (F32.neg v) = F32.neg (invTransferFunc v).
Proof.
  intros Hv. unfold transferFunc, invTransferFunc. cbv zeta.
  rewrite Abs_neg, (Copysign_neg _ _ Hv). split.
  - destruct (math32.Abs v <=? dec 4045 5).
    + apply div_neg_l.
    + apply mul_neg_l.
  - destruct (math32.Abs v <=? dec 31308 7).
    + apply mul_neg_r.
    + apply mul_neg_l.
Qed.

Lemma transfer_functions_odd_witness :
  is_nan (dec 5 1) = false /\
  transferFunc (M := math32_special) (F32.neg (dec 5 1))
  = F32.neg (transferFunc (M := math32_special) (dec 5 1)).
Proof.
  assert (H : is_nan (dec 5 1) = false) by by_computation.
  split; [exact H|].
  exact (proj1 (transfer_functions_odd math32_special (dec 5 1) H)).
Defined.

(** ** Delta E *)

Lemma binary_round_aux_signbit_false m e l :
  signbit (binary_round_aux prec emax false m e l) = false.
Proof.
  unfold binary_round_aux.
  destruct (shr_fexp prec emax m e l) as [mrs' e'].
  destruct (shr_fexp prec emax _ e' loc_Exact) as [mrs'' e''].
  destruct (shr_m mrs''); try reflexivity.
  destruct (e'' <=? emax - prec)%Z; reflexivity.
Qed.

Lemma binary_normalize_opp m e :
  binary_normalize prec emax (- m) e false
  = match m with
    | Z0 => S754_zero false
    | _ => F32.neg (binary_normalize prec emax m e false)
    end.
Proof.
  destruct m as [|p|p]; cbn [Z.opp binary_normalize]; try reflexivity.
  - unfold binary_round.
    destruct (shl_align p e _) as [mz ez]. apply (binary_round_aux_opp false).
  - unfold binary_round.
    destruct (shl_align p e _) as [mz ez].
    rewrite (binary_round_aux_opp false).
    destruct (binary_round_aux _ _ _ _ _ _) as [[]|[]| |[] ? ?]; reflexivity.
Qed.

(** [a - b] and [b - a] are opposite, or both are +0. *)
Lemma sub_swap a b :
  a - b = F32.neg (b - a) \/ (a - b = S754_zero false /\ b - a = S754_zero false).
Proof.
  destruct a as [sa|sa| |sa ma ea], b as [sb|sb| |sb mb eb];
    try (left; reflexivity);
    try (destruct sa, sb; (left; reflexivity) || (right; split; reflexivity)).
  unfold F32.sub, SFsub. rewrite (Z.min_comm eb ea).
  set (A := cond_Zopp sa (Zpos (fst (shl_align ma ea (Z.min ea eb))))).
  set (B := cond_Zopp sb (Zpos (fst (shl_align mb eb (Z.min ea eb))))).
  replace (A - B)%Z with (- (B - A))%Z by lia.
  rewrite binary_normalize_opp.
  destruct (B - A)%Z eqn:E; [right; split; reflexivity | left; reflexivity | left; reflexivity].
Qed.

Lemma mul_neg_neg x : F32.neg x * F32.neg x = x * x.
Proof. rewrite mul_neg_l, mul_neg_r. destruct (x * x) as [[]|[]| |[] m e]; reflexivity. Qed.

Lemma square_sub_swap a b : (a - b) * (a - b) = (b - a) * (b - a).
Proof.
  destruct (sub_swap a b) as [H|[H1 H2]].
  - rewrite H. apply mul_neg_neg.
  - rewrite H1, H2. reflexivity.
Qed.

Lemma signbit_square x : signbit (x * x) = false.
Proof.
  destruct x as [[]|[]| |[] m e]; try reflexivity;
    apply binary_round_aux_signbit_false.
Qed.

Lemma signbit_add x y : signbit x = false -> signbit y = false -> signbit (x + y) = false.
Proof.
  destruct x as [[]|[]| |[] mx ex]; try discriminate; intros _;
    destruct y as [[]|[]| |[] my ey]; try discriminate; intros _; try reflexivity.
  unfold F32.add, SFadd. cbn [cond_Zopp].
  unfold binary_normalize.
  match goal with |- context [(Zpos ?a + Zpos ?b)%Z] =>
    change (Zpos a + Zpos b)%Z with (Zpos (a + b)) end.
  unfold binary_round. destruct (shl_align _ _ _) as [mz ez].
  apply binary_round_aux_signbit_false.
Qed.

Lemma signbit_sqrt x : signbit x = false -> signbit (math32.Sqrt x) = false.
Proof.
  destruct x as [[]|[]| |[] m e]; try discriminate; intros _; try reflexivity.
  unfold math32.Sqrt, F32.sqrt, SFsqrt.
  destruct (SFsqrt_core_binary prec emax (Zpos m) e) as [[mz ez] lz].
  apply binary_round_aux_signbit_false.
Qed.

Lemma signbit_norm a b : signbit (math32.Sqrt (a * a + b * b)) = false.
Proof. apply signbit_sqrt, signbit_add; apply signbit_square. Qed.

Lemma signbit_Dot e : signbit (ms3.Dot e e) = false.
Proof.
  unfold ms3.Dot. apply signbit_add; [apply signbit_add|]; apply signbit_square.
Qed.

(** In the model the two orders give the same datum (the model has
    one NaN). *)
Lemma OKLAB_DeltaE_swap (a b : OKLAB) : OKLAB_DeltaE a b = OKLAB_DeltaE b a.
Proof.
  unfold OKLAB_DeltaE, ms3.Dot, ms3.Sub. cbv zeta. cbn [ms3.X ms3.Y ms3.Z vec_OKLAB].
  rewrite (square_sub_swap (OKLAB_L a) (OKLAB_L b)),
          (square_sub_swap (OKLAB_A a) (OKLAB_A b)),
          (square_sub_swap (OKLAB_B a) (OKLAB_B b)).
  reflexivity.
Qed.

(** X2.  OKLAB.DeltaE is symmetric: on every pair of colours
    [a.DeltaE(b)] and [b.DeltaE(a)] are both NaN, or neither is and
    they are the same number bit for bit (each difference is squared,
    and the square of [a - b] is the square of [b - a]); so every
    comparison of the one with a bound gives what the comparison of the
    other gives.  The gamut mapper calls it once as
    [origin.DeltaE(clipped)] and once as [clipped.DeltaE(current)]; the
    order makes no difference to its tests. *)
Theorem OKLAB_DeltaE_symmetric (a b : OKLAB) :
  ((is_nan (OKLAB_DeltaE a b) = true /\ is_nan (OKLAB_DeltaE b a) = true) \/
   (is_nan (OKLAB_DeltaE a b) = false /\ OKLAB_DeltaE a b = OKLAB_DeltaE b a)) /\
  (forall bound : float32,
     (OKLAB_DeltaE a b <? bound) = (OKLAB_DeltaE b a <? bound)).
Proof.
  rewrite (OKLAB_DeltaE_swap a b). split; [|reflexivity].
  destruct (is_nan (OKLAB_DeltaE b a)); [left|right]; split; reflexivity.
Qed.

(** X3.  The Delta E of a colour with finite components to itself is
    +0. *)
Theorem OKLAB_DeltaE_self (c : OKLAB) :
  is_finite (OKLAB_L c) = true -> is_finite (OKLAB_A c) = true ->
  is_finite (OKLAB_B c) = true -> OKLAB_DeltaE c c = of_Z 0.
Proof.
  intros HL HA HB.
  unfold OKLAB_DeltaE, ms3.Dot, ms3.Sub. cbv zeta. cbn [ms3.X ms3.Y ms3.Z vec_OKLAB].
  rewrite (sub_diag _ HL), (sub_diag _ HA), (sub_diag _ HB). reflexivity.
Qed.

Lemma OKLAB_DeltaE_self_witness :
  is_finite (OKLAB_L oklab_sample) = true /\
  OKLAB_DeltaE oklab_sample oklab_sample = of_Z 0.
Proof.
  assert (HL : is_finite (OKLAB_L oklab_sample) = true) by by_computation.
  assert (HA : is_finite (OKLAB_A oklab_sample) = true) by by_computation.
  assert (HB : is_finite (OKLAB_B oklab_sample) = true) by by_computation.
  split; [exact HL|].
  exact (OKLAB_DeltaE_self oklab_sample HL HA HB).
Defined.

(** X4.  OKLAB.DeltaE is never negative: on every pair of colours the
    result is a NaN, or its sign bit is clear (it is +0, a positive
    number or +Inf, never -0); and so the test [E < JND] of the gamut
    mapper never sees a number below zero. *)
Theorem OKLAB_DeltaE_not_negative (a b : OKLAB) :
  (is_nan (OKLAB_DeltaE a b) = true \/ signbit (OKLAB_DeltaE a b) = false) /\
  (OKLAB_DeltaE a b <? of_Z 0) = false.
Proof.
  assert (H : signbit (OKLAB_DeltaE a b) = false).
  { unfold OKLAB_DeltaE. cbv zeta. apply signbit_sqrt, signbit_Dot. }
  split; [right; exact H|]. apply nonneg_not_below_zero, H.
Qed.

(** ** Polar forms *)

Section Polar.
Context {M : Math32} {K : MS1}.

Lemma OKLAB_OKLCH_shape c :
  signbit (OKLCH_C (OKLAB_OKLCH c)) = false /\
  ((OKLCH_C (OKLAB_OKLCH c) <=? dec 4 6) = false \/ OKLCH_H (OKLAB_OKLCH c) = of_Z 0).
Proof.
  unfold OKLAB_OKLCH. cbv zeta. cbn [OKLCH_L OKLCH_C OKLCH_H].
  split; [apply signbit_norm|].
  destruct (_ <=? dec 4 6); [right|left]; reflexivity.
Qed.

Lemma CIELAB_CIELCH_shape c :
  signbit (CIELCH_C (CIELAB_CIELCH c)) = false /\
  ((CIELCH_C (CIELAB_CIELCH c) <=? dec 15 4) = false \/ CIELCH_H (CIELAB_CIELCH c) = of_Z 0).
Proof.
  unfold CIELAB_CIELCH. cbv zeta. cbn [CIELCH_L CIELCH_C CIELCH_H].
  split; [apply signbit_norm|].
  destruct (_ <=? dec 15 4); [right|left]; reflexivity.
Qed.

Lemma sub_zero_r x : x - of_Z 0 = x.
Proof. destruct x as [[]|[]| |[] m e]; reflexivity. Qed.

Lemma gm_search_no_iteration fuel c :
  (OKLCH_C c >? gm_eps) = false ->
  gm_search (Datatypes.S fuel) c
  = Some (clipped_OKLCH (CIEXYZ_LSRGB (OKLAB_CIEXYZ (OKLCH_OKLAB c)))).
Proof.
  intros HC. unfold gm_search. cbv zeta.
  destruct (_ <? JND); [reflexivity|].
  cbn [for_loop]. unfold gm_cond at 1. cbn [gm_cmax gm_cmin].
  rewrite sub_zero_r, HC. reflexivity.
Qed.

End Polar.

(** X5.  OKLAB.OKLCH and CIELAB.CIELCH never return a negative chroma:
    the chroma is a square root of a sum of squares, so it is a NaN or
    its sign bit is clear (+0, a positive number or +Inf, never -0).
    And whenever the chroma they return is at most their epsilon
    (0.000004, respectively 0.0015) the hue they return is 0, whatever
    Atan2 gave. *)
Theorem polar_form_chroma_and_hue (M : Math32) (c : OKLAB) (d : CIELAB) :
  ((is_nan (OKLCH_C (OKLAB_OKLCH c)) = true \/
    signbit (OKLCH_C (OKLAB_OKLCH c)) = false) /\
   ((OKLCH_C (OKLAB_OKLCH c) <=? dec 4 6) = false \/ OKLCH_H (OKLAB_OKLCH c) = of_Z 0)) /\
  ((is_nan (CIELCH_C (CIELAB_CIELCH d)) = true \/
    signbit (CIELCH_C (CIELAB_CIELCH d)) = false) /\
   ((CIELCH_C (CIELAB_CIELCH d) <=? dec 15 4) = false \/ CIELCH_H (CIELAB_CIELCH d) = of_Z 0)).
Proof.
  destruct (OKLAB_OKLCH_shape c) as [H1 H2].
  destruct (CIELAB_CIELCH_shape d) as [H3 H4].
  split; (split; [right; assumption|assumption]).
Qed.

(** ** The gamut mapper away from the search *)

(** X6.  A colour whose lightness passes the guard and whose chroma is
    not above 1e-4 (a zero, a negative or a NaN chroma included) never
    enters the bisection: whether or not the first Delta E is below the
    JND, the mapper returns the OKLCH form of the colour's own clip,
    and one evaluation of the loop guard is enough. *)
Theorem GamutMappedLSRGB_low_chroma (M : Math32) (K : MS1) (fuel : nat) (c : OKLCH) :
  (OKLCH_L c <? of_Z 0) = false -> (OKLCH_L c >? of_Z 1) = false ->
  (OKLCH_C c >? gm_eps) = false ->
  OKLCH_GamutMappedLSRGB (Datatypes.S fuel) c
  = Some (clipped_OKLCH (CIEXYZ_LSRGB (OKLAB_CIEXYZ (OKLCH_OKLAB c)))).
Proof.
  intros H0 H1 HC. unfold OKLCH_GamutMappedLSRGB. cbv zeta.
  rewrite H0, H1. cbn [orb]. apply gm_search_no_iteration, HC.
Qed.

Lemma GamutMappedLSRGB_low_chroma_witness :
  (OKLCH_C oklch_black >? gm_eps) = false /\
  OKLCH_GamutMappedLSRGB (M := math32_special) (K := ms1_model) 1 oklch_black
  = Some (clipped_OKLCH (M := math32_special) (K := ms1_model)
            (CIEXYZ_LSRGB (OKLAB_CIEXYZ (OKLCH_OKLAB (M := math32_special) oklch_black)))).
Proof.
  assert (H0 : (OKLCH_L oklch_black <? of_Z 0) = false) by by_computation.
  assert (H1 : (OKLCH_L oklch_black >? of_Z 1) = false) by by_computation.
  assert (HC : (OKLCH_C oklch_black >? gm_eps) = false) by by_computation.
  split; [exact HC|].
  exact (GamutMappedLSRGB_low_chroma math32_special ms1_model 0 oklch_black H0 H1 HC).
Defined.

(** X7.  Whatever GamutMappedLSRGB returns, on any input and by any of
    its four return statements, has a chroma that is a NaN or has its
    sign bit clear (never a negative number, never -0) and, when that
    chroma is at most 0.000004, the hue 0: the early return writes
    chroma 0 and hue 0, the other three go through OKLAB.OKLCH. *)
Theorem GamutMappedLSRGB_output_shape (M : Math32) (K : MS1)
    (fuel : nat) (c out : OKLCH) :
  OKLCH_GamutMappedLSRGB fuel c = Some out ->
  (is_nan (OKLCH_C out) = true \/ signbit (OKLCH_C out) = false) /\
  ((OKLCH_C out <=? dec 4 6) = false \/ OKLCH_H out = of_Z 0).
Proof.
  unfold OKLCH_GamutMappedLSRGB. cbv zeta.
  destruct (_ || _)%bool.
  - intros [= <-]. cbn [OKLCH_C OKLCH_H].
    split; [right; reflexivity|right; reflexivity].
  - intros H. destruct (gm_search_returns_clipped _ _ H) as [rgb ->].
    unfold clipped_OKLCH. destruct (OKLAB_OKLCH_shape (CIEXYZ_OKLAB (LSRGB_CIEXYZ
      (LSRGB_ClipToGamut rgb)))) as [H1 H2].
    split; [right; exact H1|exact H2].
Qed.

Lemma GamutMappedLSRGB_output_shape_witness :
  OKLCH_GamutMappedLSRGB (M := math32_special) (K := ms1_model) 0 oklch_too_light
  = Some (mkOKLCH (of_Z 1) (of_Z 0) (of_Z 0)) /\
  ((OKLCH_C (mkOKLCH (of_Z 1) (of_Z 0) (of_Z 0)) <=? dec 4 6) = false \/
   OKLCH_H (mkOKLCH (of_Z 1) (of_Z 0) (of_Z 0)) = of_Z 0).
Proof.
  assert (H : OKLCH_GamutMappedLSRGB (M := math32_special) (K := ms1_model) 0
                oklch_too_light = Some (mkOKLCH (of_Z 1) (of_Z 0) (of_Z 0)))
    by by_computation.
  split; [exact H|].
  exact (proj2 (GamutMappedLSRGB_output_shape math32_special ms1_model 0
                  oklch_too_light H)).
Defined.

(** ** In gamut means finite *)

Lemma unit_interval_finite x :
  (x <=? of_Z 1) = true -> (x >=? of_Z 0) = true -> is_finite x = true.
Proof.
  destruct x as [[]|[]| |[] m e]; try reflexivity; discriminate.
Qed.

(** X8.  LSRGB.InGamut and SRGB.InGamut accept no NaN and no infinity:
    when either reports true, the three channels are finite. *)
Theorem InGamut_channels_finite (c : LSRGB) (s : SRGB) :
  LSRGB_InGamut c = true -> SRGB_InGamut s = true ->
  (is_finite (LSRGB_R c) = true /\ is_finite (LSRGB_G c) = true /\
   is_finite (LSRGB_B c) = true) /\
  (is_finite (SRGB_R s) = true /\ is_finite (SRGB_G s) = true /\
   is_finite (SRGB_B s) = true).
Proof.
  unfold LSRGB_InGamut, SRGB_InGamut. intros H H'.
  repeat (apply andb_prop in H; destruct H as [H ?]).
  repeat (apply andb_prop in H'; destruct H' as [H' ?]).
  repeat split; apply unit_interval_finite; assumption.
Qed.

Lemma InGamut_channels_finite_witness :
  LSRGB_InGamut lsrgb_sample = true /\ SRGB_InGamut srgb_sample = true /\
  is_finite (LSRGB_R lsrgb_sample) = true.
Proof.
  assert (H : LSRGB_InGamut lsrgb_sample = true) by by_computation.
  assert (H' : SRGB_InGamut srgb_sample = true) by by_computation.
  split; [exact H|]. split; [exact H'|].
  exact (proj1 (proj1 (InGamut_channels_finite lsrgb_sample srgb_sample H H'))).
Defined.

(** ** A component that is not finite *)

Lemma Dot_nonfinite_any e :
  nonfinite (ms3.X e) = true \/ nonfinite (ms3.Y e) = true \/ nonfinite (ms3.Z e) = true ->
  nonfinite (ms3.Dot e e) = true.
Proof.
  intros H. unfold ms3.Dot. destruct H as [H|[H|H]].
  - apply add_nonfinite_l, add_nonfinite_l, mul_nonfinite_l, H.
  - apply add_nonfinite_l, add_nonfinite_r, mul_nonfinite_l, H.
  - apply add_nonfinite_r, mul_nonfinite_l, H.
Qed.

(** X9.  An infinity or a NaN in any component of an OKLAB colour
    reaches the linear sRGB colour computed from it, which is then out
    of gamut, and makes every Delta E to or from the colour +Inf or
    NaN, which is below no bound: nothing on the way tests for it. *)
Theorem nonfinite_OKLAB_propagates (c other : OKLAB) (bound : float32) :
  nonfinite (OKLAB_L c) = true \/ nonfinite (OKLAB_A c) = true \/
  nonfinite (OKLAB_B c) = true ->
  LSRGB_InGamut (CIEXYZ_LSRGB (OKLAB_CIEXYZ c)) = false /\
  (OKLAB_DeltaE c other <? bound) = false /\
  (OKLAB_DeltaE other c <? bound) = false.
Proof.
  intros H. split; [|split].
  - apply LSRGB_InGamut_nonfinite, CIEXYZ_LSRGB_nonfinite.
    unfold OKLAB_CIEXYZ. cbv zeta. cbn [CIEXYZ_X].
    apply MulMatVec_nonfinite. left. cbn [ms3.X].
    apply mul_nonfinite_l, mul_nonfinite_l, MulMatVec_nonfinite. exact H.
  - unfold OKLAB_DeltaE. cbv zeta.
    apply sqrt_nonfinite_not_below, Dot_nonfinite_any.
    cbn [ms3.Sub ms3.X ms3.Y ms3.Z vec_OKLAB].
    destruct H as [H|[H|H]]; [left|right; left|right; right];
      apply sub_nonfinite_l, H.
  - unfold OKLAB_DeltaE. cbv zeta.
    apply sqrt_nonfinite_not_below, Dot_nonfinite_any.
    cbn [ms3.Sub ms3.X ms3.Y ms3.Z vec_OKLAB].
    destruct H as [H|[H|H]]; [left|right; left|right; right];
      apply sub_nonfinite_r, H.
Qed.

Lemma nonfinite_OKLAB_propagates_witness :
  nonfinite (OKLAB_B oklab_nan_b) = true /\
  LSRGB_InGamut (CIEXYZ_LSRGB (OKLAB_CIEXYZ oklab_nan_b)) = false.
Proof.
  assert (H : nonfinite (OKLAB_B oklab_nan_b) = true) by by_computation.
  split; [exact H|].
  exact (proj1 (nonfinite_OKLAB_propagates oklab_nan_b oklab_sample JND
                  (or_intror (or_intror H)))).
Defined.

(** ** wrapHue where it returns *)

Lemma while_guard_false {S : Type} (cond : S -> bool) (body : S -> S) fuel s :
  cond s = false -> while (Datatypes.S fuel) cond body s = Some s.
Proof. intros Hc. unfold while. cbn [for_loop]. rewrite Hc. reflexivity. Qed.

Lemma ltb_not_geb x y : (x <? y) = true -> (x >=? y) = false.
Proof.
  unfold F32.ltb, F32.geb, F32.leb, SFltb, SFleb. rewrite (SFcompare_antisym x y).
  destruct (SFcompare x y) as [[]|]; cbn; congruence.
Qed.

Lemma wrapHue_in_range fuel h :
  (of_Z 0 <=? h) = true -> (h <? of_Z 360) = true ->
  wrapHue (Datatypes.S fuel) h = Some h.
Proof.
  intros H0 H1. unfold wrapHue.
  rewrite while_guard_false; [|exact (leb_not_gtb _ _ H0)].
  apply while_guard_false. exact (ltb_not_geb _ _ H1).
Qed.

Lemma wrapHue_infinite fuel : wrapHue fuel pInf = None /\ wrapHue fuel nInf = None.
Proof.
  split; unfold wrapHue.
  - destruct fuel as [|n]; [reflexivity|].
    rewrite while_guard_false by reflexivity.
    apply while_fixed_point_diverges; reflexivity.
  - rewrite while_fixed_point_diverges; reflexivity.
Qed.

(** X10.  A hue that is already in [0, 360) comes back from wrapHue
    unchanged, after one evaluation of each guard. *)
Theorem wrapHue_identity_in_range (fuel : nat) (h : float32) :
  (of_Z 0 <=? h) = true -> (h <? of_Z 360) = true ->
  wrapHue (Datatypes.S fuel) h = Some h.
Proof. apply wrapHue_in_range. Qed.

Lemma wrapHue_identity_in_range_witness :
  (of_Z 0 <=? of_Z 120) = true /\ wrapHue 1 (of_Z 120) = Some (of_Z 120).
Proof.
  assert (H0 : (of_Z 0 <=? of_Z 120) = true) by by_computation.
  assert (H1 : (of_Z 120 <? of_Z 360) = true) by by_computation.
  split; [exact H0|].
  exact (wrapHue_identity_in_range 0 (of_Z 120) H0 H1).
Defined.

(** X11.  wrapHue never returns on an infinite hue (adding 360 to -Inf
    or taking 360 from +Inf changes nothing) and returns a NaN hue at
    once (both guards are false on a NaN).  HSV.SRGB and HSL.SRGB wrap
    the hue before they look at the saturation: with an infinite hue
    they never return either, not even for a grey, whose hue they
    would not use. *)
Theorem wrapHue_infinite_or_NaN (M : Math32) (K : MS1) (fuel : nat) (x y : float32) :
  wrapHue fuel pInf = None /\ wrapHue fuel nInf = None /\
  wrapHue (Datatypes.S fuel) NaN = Some NaN /\
  HSV_SRGB fuel (mkHSV pInf x y) = None /\ HSV_SRGB fuel (mkHSV nInf x y) = None /\
  HSL_SRGB fuel (mkHSL pInf x y) = None /\ HSL_SRGB fuel (mkHSL nInf x y) = None.
Proof.
  destruct (wrapHue_infinite fuel) as [Hp Hn].
  unfold HSV_SRGB, HSL_SRGB. cbn [HSV_H HSL_H]. rewrite Hp, Hn.
  repeat split; reflexivity.
Qed.

(** ** Every rounding gives a canonical datum *)

Section Canonical.
Local Open Scope Z_scope.

Lemma digits2_pos_log2 p : Zpos (digits2_pos p) = Z.log2 (Zpos p) + 1.
Proof.
  induction p as [p IH|p IH|]; cbn [digits2_pos]; try reflexivity;
    rewrite Pos2Z.inj_succ, IH.
  - rewrite Pos2Z.inj_xI, Z.log2_succ_double by lia. lia.
  - rewrite Pos2Z.inj_xO, Z.log2_double by lia. lia.
Qed.

Lemma Zdigits2_log2 m : 0 < m -> Zdigits2 m = Z.log2 m + 1.
Proof. destruct m as [|p|p]; try lia. intros _. apply digits2_pos_log2. Qed.

Lemma Zdigits2_nonneg m : 0 <= Zdigits2 m.
Proof. destruct m; cbn; lia. Qed.

Lemma Zdigits2_le m n : 0 <= m <= n -> Zdigits2 m <= Zdigits2 n.
Proof.
  intros [H0 H1]. destruct (Z.eq_dec m 0) as [->|Hm].
  - apply Zdigits2_nonneg.
  - rewrite !Zdigits2_log2 by lia. pose proof (Z.log2_le_mono m n H1). lia.
Qed.

Lemma Zdigits2_shiftr m n :
  0 <= m -> 0 <= n ->
  Zdigits2 (Z.shiftr m n) = Z.max 0 (Zdigits2 m - n).
Proof.
  intros Hm Hn. destruct (Z.eq_dec m 0) as [->|Hm0].
  - rewrite Z.shiftr_0_l. cbn. lia.
  - rewrite (@Zdigits2_log2 m) by lia.
    destruct (Z.lt_ge_cases (Z.log2 m) n) as [Hlt|Hge].
    + rewrite Z.shiftr_eq_0 by lia. cbn. lia.
    + assert (0 < Z.shiftr m n).
      { rewrite Z.shiftr_div_pow2 by lia.
        apply Z.div_str_pos. split; [apply Z.pow_pos_nonneg; lia|].
        transitivity (2 ^ Z.log2 m).
        - apply Z.pow_le_mono_r; lia.
        - apply Z.log2_spec. lia. }
      rewrite Zdigits2_log2 by lia.
      rewrite Z.log2_shiftr by lia. lia.
Qed.

Lemma digits2_pos_iter_xO m d :
  Zpos (digits2_pos (Pos.iter xO m d)) = Zpos (digits2_pos m) + Zpos d.
Proof.
  induction d as [|d IH] using Pos.peano_ind.
  - cbn [Pos.iter digits2_pos]. lia.
  - rewrite Pos.iter_succ. cbn [digits2_pos]. lia.
Qed.

Lemma Zpos_iter_xO m d : Zpos (Pos.iter xO m d) = Zpos m * 2 ^ Zpos d.
Proof.
  induction d as [|d IH] using Pos.peano_ind.
  - cbn [Pos.iter]. lia.
  - rewrite Pos.iter_succ, Pos2Z.inj_xO, IH, Pos2Z.inj_succ, Z.pow_succ_r by lia. lia.
Qed.

(** Shifting a record to the right. *)
Lemma shr_1_m mrs : 0 <= shr_m mrs -> shr_m (shr_1 mrs) = Z.div2 (shr_m mrs).
Proof.
  destruct mrs as [m r s]. cbn [shr_m shr_1].
  destruct m as [|[p|p|]|p]; intros H; try reflexivity; lia.
Qed.

Lemma iter_pos_shr_m p : forall mrs,
  0 <= shr_m mrs -> shr_m (iter_pos shr_1 p mrs) = Z.shiftr (shr_m mrs) (Zpos p).
Proof.
  induction p as [p IH|p IH|]; intros mrs H; cbn [iter_pos].
  - assert (H1 : 0 <= shr_m (shr_1 mrs)).
    { rewrite shr_1_m by exact H. rewrite Z.div2_spec. apply Z.shiftr_nonneg. exact H. }
    assert (H2 : 0 <= shr_m (iter_pos shr_1 p (shr_1 mrs))).
    { rewrite IH by exact H1. apply Z.shiftr_nonneg. exact H1. }
    rewrite IH by exact H2. rewrite IH by exact H1. rewrite shr_1_m by exact H.
    rewrite Z.div2_spec, !Z.shiftr_shiftr by lia. f_equal. lia.
  - assert (H2 : 0 <= shr_m (iter_pos shr_1 p mrs)).
    { rewrite IH by exact H. apply Z.shiftr_nonneg. exact H. }
    rewrite IH by exact H2. rewrite IH by exact H.
    rewrite Z.shiftr_shiftr by lia. f_equal. lia.
  - rewrite shr_1_m by exact H. apply Z.div2_spec.
Qed.

Lemma shr_record_of_loc_m m l : shr_m (shr_record_of_loc m l) = m.
Proof. destruct l as [|[]]; reflexivity. Qed.


Lemma fexp_eq e : fexp prec emax e = Z.max (e - 24) (-149).
Proof. reflexivity. Qed.

(** One alignment to the exponent of the format: the mantissa stays
    non-negative and the pair it leaves is canonical. *)
Lemma shr_fexp_canonical m e l :
  0 <= m -> e <= fexp prec emax (Zdigits2 m + e) ->
  let '(mrs, e') := shr_fexp prec emax m e l in
  0 <= shr_m mrs /\ fexp prec emax (Zdigits2 (shr_m mrs) + e') = e'.
Proof.
  intros Hm He. unfold shr_fexp, shr.
  pose proof (Zdigits2_nonneg m) as Hd.
  rewrite fexp_eq in *.
  destruct (Z.max (Zdigits2 m + e - 24) (-149) - e) as [|n|n] eqn:En.
  - rewrite shr_record_of_loc_m. split; [exact Hm|]. rewrite fexp_eq. lia.
  - rewrite iter_pos_shr_m by (rewrite shr_record_of_loc_m; exact Hm).
    rewrite shr_record_of_loc_m. split; [apply Z.shiftr_nonneg; exact Hm|].
    rewrite fexp_eq, Zdigits2_shiftr by lia. lia.
  - lia.
Qed.

Lemma round_nearest_even_bounds m l :
  m <= round_nearest_even m l <= m + 1.
Proof.
  destruct l as [|[]]; cbn [round_nearest_even]; try lia.
  destruct (Z.even m); lia.
Qed.

Lemma binary_round_aux_valid s m e l :
  0 <= m -> e <= fexp prec emax (Zdigits2 m + e) ->
  valid (binary_round_aux prec emax s m e l) /\
  is_nan (binary_round_aux prec emax s m e l) = false.
Proof.
  intros Hm He. unfold binary_round_aux.
  pose proof (shr_fexp_canonical l Hm He) as H1.
  destruct (shr_fexp prec emax m e l) as [mrs1 e1]. destruct H1 as [H1 C1].
  pose proof (round_nearest_even_bounds (shr_m mrs1) (loc_of_shr_record mrs1)) as Hr.
  set (m2 := round_nearest_even (shr_m mrs1) (loc_of_shr_record mrs1)) in *.
  assert (Hm2 : 0 <= m2) by lia.
  assert (He2 : e1 <= fexp prec emax (Zdigits2 m2 + e1)).
  { pose proof (@Zdigits2_le (shr_m mrs1) m2 ltac:(lia)).
    rewrite fexp_eq in *. lia. }
  pose proof (shr_fexp_canonical loc_Exact Hm2 He2) as H2.
  destruct (shr_fexp prec emax m2 e1 loc_Exact) as [mrs2 e2]. destruct H2 as [H2 C2].
  destruct (shr_m mrs2) as [|p|p] eqn:Ep; [split; reflexivity| |lia].
  destruct (e2 <=? emax - prec) eqn:Ee; [|split; reflexivity].
  split; [|reflexivity].
  unfold valid, valid_binary, bounded, canonical_mantissa.
  rewrite Ee, andb_true_r. apply Z.eqb_eq. exact C2.
Qed.

Lemma binary_round_valid s m e :
  valid (binary_round prec emax s m e) /\
  is_nan (binary_round prec emax s m e) = false.
Proof.
  unfold binary_round, shl_align.
  destruct (fexp prec emax (Zpos (digits2_pos m) + e) - e) as [|d|d] eqn:Ed;
    apply binary_round_aux_valid; try lia; cbn [Zdigits2].
  - lia.
  - lia.
  - rewrite digits2_pos_iter_xO. rewrite !fexp_eq in *. lia.
Qed.

Lemma binary_normalize_valid m e s :
  valid (binary_normalize prec emax m e s) /\
  is_nan (binary_normalize prec emax m e s) = false.
Proof. destruct m; [split; reflexivity| |]; apply binary_round_valid. Qed.

Lemma binary_normalize_signbit m e :
  0 <= m -> signbit (binary_normalize prec emax m e false) = false.
Proof.
  destruct m as [|p|p]; intros H; [reflexivity| |lia].
  unfold binary_normalize, binary_round. destruct (shl_align _ _ _) as [mz ez].
  apply binary_round_aux_signbit_false.
Qed.

Lemma add_valid x y : valid x -> valid y -> valid (x + y).
Proof.
  intros Hx Hy.
  destruct x as [sx|sx| |sx mx ex], y as [sy|sy| |sy my ey];
    try exact Hx; try exact Hy; try reflexivity;
    try (destruct sx, sy; reflexivity).
  apply binary_normalize_valid.
Qed.

Lemma sub_valid x y : valid x -> valid y -> valid (x - y).
Proof.
  intros Hx Hy.
  destruct x as [sx|sx| |sx mx ex], y as [sy|sy| |sy my ey];
    try exact Hx; try exact Hy; try reflexivity;
    try (destruct sx, sy; reflexivity).
  apply binary_normalize_valid.
Qed.

Lemma add_finite_not_nan x y :
  is_nan x = false -> is_finite y = true -> is_nan (x + y) = false.
Proof.
  destruct x as [sx|sx| |sx mx ex]; try discriminate; intros _;
    destruct y as [sy|sy| |sy my ey]; try discriminate; intros _;
    try reflexivity; try (destruct sx, sy; reflexivity).
  apply binary_normalize_valid.
Qed.

Lemma sub_finite_not_nan x y :
  is_nan x = false -> is_finite y = true -> is_nan (x - y) = false.
Proof.
  destruct x as [sx|sx| |sx mx ex]; try discriminate; intros _;
    destruct y as [sy|sy| |sy my ey]; try discriminate; intros _;
    try reflexivity; try (destruct sx, sy; reflexivity).
  apply binary_normalize_valid.
Qed.


Lemma of_Z_360 : of_Z 360 = S754_finite false 11796480 (-15).
Proof. by_computation. Qed.

Lemma normal_mantissa_large m e :
  valid (S754_finite false m e) -> -149 < e -> 2 ^ 23 <= Zpos m.
Proof.
  unfold valid, valid_binary, bounded, canonical_mantissa. intros H He.
  apply andb_true_iff in H. destruct H as [H _]. apply Z.eqb_eq in H.
  rewrite fexp_eq, digits2_pos_log2 in H.
  assert (Hl : Z.log2 (Zpos m) = 23) by lia.
  rewrite <- Hl. apply Z.log2_spec. lia.
Qed.

(** Taking 360 from a canonical hue that is not below 360 leaves no
    negative number. *)
Lemma sub_360_signbit x :
  valid x -> (of_Z 360 <=? x)%f32 = true -> signbit (x - of_Z 360) = false.
Proof.
  rewrite of_Z_360. intros Hv Hle.
  destruct x as [sx|[]| |[] mx ex]; try discriminate Hle; try reflexivity.
  unfold F32.leb, SFleb, SFcompare in Hle.
  unfold F32.sub, SFsub. cbn [cond_Zopp].
  apply binary_normalize_signbit. unfold shl_align.
  change IntDef.Z.sub with Z.sub.
  destruct (-15 ?= ex) eqn:Hc; try discriminate Hle.
  - apply Z.compare_eq in Hc. subst ex.
    change (fst (match Z.min (-15) (-15) - -15 with
                 | Zneg d => (Pos.iter xO mx d, Z.min (-15) (-15))
                 | _ => (mx, -15) end)) with mx.
    change (fst (match Z.min (-15) (-15) - -15 with
                 | Zneg d => (Pos.iter xO 11796480%positive d, Z.min (-15) (-15))
                 | _ => (11796480%positive, -15) end)) with 11796480%positive.
    change (Pos.compare_cont Eq 11796480 mx) with (11796480 ?= mx)%positive in Hle.
    destruct (11796480 ?= mx)%positive eqn:Hm; try discriminate Hle.
    + apply Pos.compare_eq in Hm. subst mx. lia.
    + pose proof (Pos2Z.pos_lt_pos _ _ Hm). lia.
  - rewrite Z.compare_lt_iff in Hc.
    pose proof (normal_mantissa_large Hv ltac:(lia)) as Hbig.
    replace (Z.min ex (-15)) with (-15) by lia.
    replace (-15 - -15) with 0 by lia. cbn [fst].
    destruct (-15 - ex) as [|d|d] eqn:Hd; try lia. cbn [fst].
    rewrite Zpos_iter_xO.
    assert (2 ^ 1 <= 2 ^ Zpos d) by (apply Z.pow_le_mono_r; lia).
    change (2 ^ 1) with 2 in *. change (2 ^ 23) with 8388608 in *. nia.
Qed.

End Canonical.

Lemma ltb_false_leb x y :
  is_nan x = false -> is_nan y = false -> (x <? y) = false -> (y <=? x) = true.
Proof.
  unfold F32.ltb, F32.leb, SFltb, SFleb. rewrite (SFcompare_antisym y x).
  destruct x as [| | |], y as [| | |]; try discriminate; intros _ _;
    destruct (SFcompare _ _) as [[]|] eqn:Hc; cbn; try congruence;
    cbn in Hc; repeat match type of Hc with context [if ?b then _ else _] => destruct b end;
    discriminate.
Qed.

Lemma geb_false_ltb x y :
  is_nan x = false -> is_nan y = false -> (x >=? y) = false -> (x <? y) = true.
Proof.
  unfold F32.ltb, F32.geb, F32.leb, SFltb, SFleb. rewrite (SFcompare_antisym y x).
  destruct x as [| | |], y as [| | |]; try discriminate; intros _ _;
    destruct (SFcompare _ _) as [[]|] eqn:Hc; cbn; try congruence;
    cbn in Hc; repeat match type of Hc with context [if ?b then _ else _] => destruct b end;
    discriminate.
Qed.

Lemma while_invariant {S : Type} (inv : S -> Prop) (cond : S -> bool)
    (body : S -> S) :
  (forall s, inv s -> cond s = true -> inv (body s)) ->
  forall fuel s s', inv s -> while fuel cond body s = Some s' ->
    inv s' /\ cond s' = false.
Proof.
  intros Hstep. unfold while.
  induction fuel as [|n IH]; intros s s' Hi; cbn [for_loop]; [discriminate|].
  destruct (cond s) eqn:Hc.
  - apply IH. apply Hstep; assumption.
  - intros [= <-]. split; assumption.
Qed.


Lemma wrapHue_returns_in_range fuel h h' :
  valid h -> is_nan h = false -> wrapHue fuel h = Some h' ->
  (of_Z 0 <=? h') = true /\ (h' <? of_Z 360) = true.
Proof.
  intros Hv Hn. unfold wrapHue.
  destruct (while fuel (fun h => h <? of_Z 0) _ h) as [h1|] eqn:H1; [|discriminate].
  apply (while_invariant (fun h => valid h /\ is_nan h = false)) in H1.
  - destruct H1 as [[Hv1 Hn1] Hc1]. intros H2.
    apply (while_invariant
             (fun h => valid h /\ is_nan h = false /\ (h <? of_Z 0) = false)) in H2.
    + destruct H2 as [(Hv2 & Hn2 & Hlt) Hc2]. split.
      * apply ltb_false_leb; [exact Hn2|reflexivity|exact Hlt].
      * apply geb_false_ltb; [exact Hn2|reflexivity|exact Hc2].
    + intros s (Hs & Hns & _) Hc. split; [|split].
      * apply sub_valid; [exact Hs|reflexivity].
      * apply sub_finite_not_nan; [exact Hns|reflexivity].
      * apply nonneg_not_below_zero. apply sub_360_signbit; assumption.
    + auto.
  - intros s [Hs Hns] Hc. split.
    + apply add_valid; [exact Hs|reflexivity].
    + apply add_finite_not_nan; [exact Hns|reflexivity].
  - auto.
Qed.

(** X12.  Whenever wrapHue returns, on a float32 datum that is not a
    NaN, what it returns is in [0, 360): at least 0 and below 360.  The
    first loop leaves a hue that is not negative; taking 360 from a
    hue that is at least 360 cannot make it negative, so the second
    loop keeps that, and it ends below 360. *)
Theorem wrapHue_range (fuel : nat) (h h' : float32) :
  valid h -> is_nan h = false -> wrapHue fuel h = Some h' ->
  (of_Z 0 <=? h') = true /\ (h' <? of_Z 360) = true.
Proof. apply wrapHue_returns_in_range. Qed.

Lemma wrapHue_range_witness :
  valid (of_Z 725) /\ wrapHue 3 (of_Z 725) = Some (of_Z 5) /\
  (of_Z 5 <? of_Z 360) = true.
Proof.
  assert (Hv : valid (of_Z 725)) by by_computation.
  assert (Hn : is_nan (of_Z 725) = false) by by_computation.
  assert (Hw : wrapHue 3 (of_Z 725) = Some (of_Z 5)) by by_computation.
  split; [exact Hv|]. split; [exact Hw|].
  exact (proj2 (wrapHue_range 3 Hv Hn Hw)).
Defined.

(** ** Sixteen-bit channels *)

Lemma all_from_sound n : forall z p,
  all_from n z p = true ->
  forall r, (z <= r < z + BinInt.Z.of_nat n)%Z -> p r = true.
Proof.
  induction n as [|n IH]; intros z p H r Hr.
  - cbn in Hr. lia.
  - cbn [all_from] in H. destruct (p z) eqn:Hz; [|discriminate].
    destruct (BinInt.Z.eq_dec r z) as [->|Hne]; [exact Hz|].
    apply (IH _ _ H). lia.
Qed.

Lemma yields_sound o r : yields o r = true -> o = Some r.
Proof.
  destruct o as [x|]; [|discriminate]. cbn [yields].
  intros H. apply BinInt.Z.eqb_eq in H. congruence.
Qed.

Lemma same_float_sound x y : same_float x y = true -> x = y.
Proof.
  destruct x as [s|s| |s m e], y as [t|t| |t n f]; try discriminate;
    cbn [same_float]; intros H; try reflexivity.
  - apply Bool.eqb_prop in H. congruence.
  - apply Bool.eqb_prop in H. congruence.
  - apply andb_prop in H. destruct H as [H He].
    apply andb_prop in H. destruct H as [Hs Hm].
    apply Bool.eqb_prop in Hs. apply Pos.eqb_eq in Hm. apply BinInt.Z.eqb_eq in He.
    congruence.
Qed.

Lemma channel_sweep : all_from (Pos.to_nat 65536) 0 channel_round_trip = true.
Proof. by_computation. Qed.

Lemma channel_linear_sweep :
  all_from (Pos.to_nat 2651) 0 channel_linear_round_trip = true.
Proof. by_computation. Qed.

Lemma channel_facts r :
  (0 <= r <= 65535)%Z ->
  ((of_Z r / of_Z 65535 <=? of_Z 1) = true /\
   (of_Z r / of_Z 65535 >=? of_Z 0) = true) /\
  uint32_of_float32 (of_Z r / of_Z 65535 * of_Z 65535 + dec 5 1) = Some r /\
  uint32_of_float32 (of_Z r / of_Z 65535 * of_Z 65535) = Some r /\
  dec 5 1 * (of_Z r / of_Z 65535 + of_Z r / of_Z 65535) = of_Z r / of_Z 65535.
Proof.
  intros Hr.
  assert (H : channel_round_trip r = true).
  { apply (@all_from_sound _ _ _ channel_sweep).
    rewrite positive_nat_Z. lia. }
  unfold channel_round_trip in H. cbv zeta in H.
  apply andb_prop in H. destruct H as [H H5].
  apply andb_prop in H. destruct H as [H H4].
  apply andb_prop in H. destruct H as [H H3].
  apply andb_prop in H. destruct H as [H1 H2].
  split; [split; assumption|].
  split; [apply yields_sound, H3|].
  split; [apply yields_sound, H4|].
  apply same_float_sound, H5.
Qed.

Lemma channel_linear_facts (M : Math32) r :
  (0 <= r <= 2650)%Z ->
  uint32_of_float32
    (invTransferFunc (transferFunc (of_Z r / of_Z 65535)) * of_Z 65535 + dec 5 1)
  = Some r.
Proof.
  intros Hr.
  assert (H : channel_linear_round_trip r = true).
  { apply (@all_from_sound _ _ _ channel_linear_sweep).
    rewrite positive_nat_Z. lia. }
  unfold channel_linear_round_trip in H. cbv zeta in H.
  apply andb_prop in H. destruct H as [H H3].
  apply andb_prop in H. destruct H as [H1 H2].
  unfold transferFunc. cbv zeta. rewrite H1.
  unfold invTransferFunc. cbv zeta. rewrite H2.
  apply yields_sound, H3.
Qed.

(** X13.  A colour of 16-bit channels goes through ColorToSRGB and
    back through SRGB.RGBA unchanged: for each of the 65536 channel
    values [r], [float32(r)/0xffff] is in [0,1] and
    [uint32(x*0xffff + 0.5)] is [r] again; the alpha that comes back is
    0xffff.  The earlier revision of SRGB.RGBA, which truncates
    [x*0xffff] without the rounding term, reads the same channels
    back. *)
Theorem RGBA64_round_trip (px : RGBA64) :
  (0 <= px_R px <= 65535)%Z -> (0 <= px_G px <= 65535)%Z ->
  (0 <= px_B px <= 65535)%Z ->
  SRGB_InGamut (ColorToSRGB px) = true /\
  SRGB_RGBA (ColorToSRGB px) = (Some (px_R px), Some (px_G px), Some (px_B px), 65535%Z) /\
  Legacy.SRGB_RGBA (ColorToSRGB px)
  = (Some (px_R px), Some (px_G px), Some (px_B px), 65535%Z).
Proof.
  destruct px as [r g b a]. cbn [px_R px_G px_B]. intros Hr Hg Hb.
  destruct (channel_facts Hr) as ([Hr1 Hr0] & Hr2 & Hr3 & _).
  destruct (channel_facts Hg) as ([Hg1 Hg0] & Hg2 & Hg3 & _).
  destruct (channel_facts Hb) as ([Hb1 Hb0] & Hb2 & Hb3 & _).
  unfold ColorToSRGB. cbn [RGBA RGBA64_Color px_R px_G px_B px_A].
  unfold SRGB_InGamut, SRGB_RGBA, Legacy.SRGB_RGBA. cbn [SRGB_R SRGB_G SRGB_B].
  rewrite Hr1, Hr0, Hg1, Hg0, Hb1, Hb0, Hr2, Hg2, Hb2, Hr3, Hg3, Hb3.
  repeat split.
Qed.

Lemma RGBA64_round_trip_witness :
  (0 <= px_R pixel_sample <= 65535)%Z /\
  SRGB_RGBA (ColorToSRGB pixel_sample)
  = (Some (px_R pixel_sample), Some (px_G pixel_sample), Some (px_B pixel_sample),
     65535%Z).
Proof.
  assert (Hr : (0 <= px_R pixel_sample <= 65535)%Z) by (vm_compute; split; discriminate).
  assert (Hg : (0 <= px_G pixel_sample <= 65535)%Z) by (vm_compute; split; discriminate).
  assert (Hb : (0 <= px_B pixel_sample <= 65535)%Z) by (vm_compute; split; discriminate).
  split; [exact Hr|].
  exact (proj1 (proj2 (@RGBA64_round_trip pixel_sample Hr Hg Hb))).
Defined.

(** X14.  Dark pixels survive linearisation exactly.  For channels of
    at most 2650 (of 65535) [float32(r)/0xffff] is at most 0.04045, so
    [transferFunc] divides by 12.92; the quotient is at most 0.0031308,
    so [invTransferFunc] multiplies by 12.92; and SRGB.RGBA reads [r]
    back from the product.  [Pow] is never called: the result is the
    same for every implementation of it. *)
Theorem dark_pixels_survive_linearisation (M : Math32) (px : RGBA64) :
  (0 <= px_R px <= 2650)%Z -> (0 <= px_G px <= 2650)%Z -> (0 <= px_B px <= 2650)%Z ->
  SRGB_RGBA (LSRGB_SRGB (SRGB_LSRGB (ColorToSRGB px)))
  = (Some (px_R px), Some (px_G px), Some (px_B px), 65535%Z).
Proof.
  destruct px as [r g b a]. cbn [px_R px_G px_B]. intros Hr Hg Hb.
  unfold ColorToSRGB. cbn [RGBA RGBA64_Color px_R px_G px_B px_A].
  unfold SRGB_RGBA, LSRGB_SRGB, SRGB_LSRGB.
  cbn [SRGB_R SRGB_G SRGB_B LSRGB_R LSRGB_G LSRGB_B].
  rewrite (channel_linear_facts M Hr), (channel_linear_facts M Hg),
          (channel_linear_facts M Hb).
  reflexivity.
Qed.

Lemma dark_pixels_survive_linearisation_witness :
  (0 <= px_B dark_pixel <= 2650)%Z /\
  SRGB_RGBA (LSRGB_SRGB (M := math32_special)
               (SRGB_LSRGB (M := math32_special) (ColorToSRGB dark_pixel)))
  = (Some (px_R dark_pixel), Some (px_G dark_pixel), Some (px_B dark_pixel), 65535%Z).
Proof.
  assert (Hr : (0 <= px_R dark_pixel <= 2650)%Z) by (vm_compute; split; discriminate).
  assert (Hg : (0 <= px_G dark_pixel <= 2650)%Z) by (vm_compute; split; discriminate).
  assert (Hb : (0 <= px_B dark_pixel <= 2650)%Z) by (vm_compute; split; discriminate).
  split; [exact Hb|].
  exact (@dark_pixels_survive_linearisation math32_special dark_pixel Hr Hg Hb).
Defined.

(** ** Greys through HSV and HSL *)

Lemma Max_same g : math32.Max g (math32.Max g g) = g.
Proof.
  assert (H : math32.Max g g = g).
  { destruct g as [[]|[]| |[] m e]; try reflexivity;
      unfold math32.Max; destruct (_ >? _); reflexivity. }
  rewrite H. exact H.
Qed.

Lemma Min_same g : math32.Min g (math32.Min g g) = g.
Proof.
  assert (H : math32.Min g g = g).
  { destruct g as [[]|[]| |[] m e]; try reflexivity;
      unfold math32.Min; destruct (_ <? _); reflexivity. }
  rewrite H. exact H.
Qed.

Lemma wrapHue_zero fuel : wrapHue (Datatypes.S fuel) (S754_zero false) = Some (of_Z 0).
Proof. reflexivity. Qed.

Lemma zero_over_positive g :
  (g >? of_Z 0) = true -> is_finite g = true -> S754_zero false / g = of_Z 0.
Proof. destruct g as [[]|[]| |[] m e]; try discriminate; reflexivity. Qed.

Lemma SRGB_HSV_grey fuel g :
  is_finite g = true ->
  SRGB_HSV (Datatypes.S fuel) (mkSRGB g g g) = Some (mkHSV (of_Z 0) (of_Z 0) g).
Proof.
  intros Hg. unfold SRGB_HSV, ms3.Max, ms3.Min. cbv zeta.
  cbn [vec_SRGB ms3.X ms3.Y ms3.Z SRGB_R SRGB_G SRGB_B].
  rewrite Max_same, Min_same, (sub_diag _ Hg).
  change (S754_zero false =? of_Z 0) with true. cbv iota.
  change undefinedHue with (S754_zero false). rewrite wrapHue_zero.
  destruct (g >? of_Z 0) eqn:Hp; [|reflexivity].
  rewrite (zero_over_positive _ Hp Hg). reflexivity.
Qed.

Lemma SRGB_HSL_grey fuel g :
  is_finite g = true ->
  SRGB_HSL (Datatypes.S fuel) (mkSRGB g g g)
  = Some (mkHSL (of_Z 0) (of_Z 0) (dec 5 1 * (g + g))).
Proof.
  intros Hg. unfold SRGB_HSL, ms3.Max, ms3.Min. cbv zeta.
  cbn [vec_SRGB ms3.X ms3.Y ms3.Z SRGB_R SRGB_G SRGB_B].
  rewrite Max_same, Min_same, (sub_diag _ Hg).
  change (S754_zero false =? of_Z 0) with true. cbv iota.
  change undefinedHue with (S754_zero false). rewrite wrapHue_zero.
  reflexivity.
Qed.

(** X15.  SRGB.HSV and SRGB.HSL of a grey with a finite level [g]: the
    hue is the sentinel 0, the saturation is +0, the value is [g] and
    the lightness is [0.5 * (g + g)]; wrapHue returns at its first
    guard evaluations. *)
Theorem grey_to_HSV_and_HSL (fuel : nat) (g : float32) :
  is_finite g = true ->
  SRGB_HSV (Datatypes.S fuel) (mkSRGB g g g) = Some (mkHSV (of_Z 0) (of_Z 0) g) /\
  SRGB_HSL (Datatypes.S fuel) (mkSRGB g g g)
  = Some (mkHSL (of_Z 0) (of_Z 0) (dec 5 1 * (g + g))).
Proof. intros Hg. split; [apply SRGB_HSV_grey | apply SRGB_HSL_grey]; exact Hg. Qed.

Lemma grey_to_HSV_and_HSL_witness :
  is_finite (dec 5 1) = true /\
  SRGB_HSV 1 (mkSRGB (dec 5 1) (dec 5 1) (dec 5 1))
  = Some (mkHSV (of_Z 0) (of_Z 0) (dec 5 1)).
Proof.
  assert (H : is_finite (dec 5 1) = true) by by_computation.
  split; [exact H|].
  exact (proj1 (@grey_to_HSV_and_HSL 0 (dec 5 1) H)).
Defined.

Lemma ms1_model_Clamp_unit x :
  (of_Z 0 <=? x) = true -> (x <=? of_Z 1) = true ->
  Clamp (MS1 := ms1_model) x (of_Z 0) (of_Z 1) = x.
Proof.
  intros H0 H1. cbn [Clamp ms1_model].
  pose proof (leb_not_gtb _ _ H0) as H0'. pose proof (leb_not_gtb _ _ H1) as H1'.
  unfold F32.gtb in H0'. unfold F32.ltb. rewrite H0', H1'. reflexivity.
Qed.

(** X16.  A grey pixel of 16-bit channels comes back unchanged from
    ColorToSRGB, SRGB.HSV, HSV.SRGB and SRGB.RGBA, and likewise through
    HSL, for every [ms1.Clamp] that leaves the numbers of [0,1] alone:
    the hue is the sentinel, the saturation 0 takes the achromatic
    branch of HSV.SRGB and of HSL.SRGB, and for these levels
    [0.5 * (g + g)] is [g]. *)
Theorem grey_pixel_through_HSV_and_HSL (M : Math32) (K : MS1) (r a : uint32) :
  (0 <= r <= 65535)%Z ->
  (forall x, (of_Z 0 <=? x) = true -> (x <=? of_Z 1) = true ->
             Clamp x (of_Z 0) (of_Z 1) = x) ->
  option_map SRGB_RGBA (SRGB_via_HSV 1 (ColorToSRGB (mkRGBA64 r r r a)))
  = Some (Some r, Some r, Some r, 65535%Z) /\
  option_map SRGB_RGBA (SRGB_via_HSL 1 (ColorToSRGB (mkRGBA64 r r r a)))
  = Some (Some r, Some r, Some r, 65535%Z).
Proof.
  intros Hr HK.
  destruct (channel_facts Hr) as ([H1 H0] & H2 & _ & Hhalf).
  assert (Hfin : is_finite (of_Z r / of_Z 65535) = true)
    by (apply unit_interval_finite; assumption).
  assert (Hzero : Clamp (of_Z 0) (of_Z 0) (of_Z 1) = of_Z 0)
    by (apply HK; by_computation).
  assert (Hlev : Clamp (of_Z r / of_Z 65535) (of_Z 0) (of_Z 1) = of_Z r / of_Z 65535)
    by (apply HK; assumption).
  unfold ColorToSRGB. cbn [RGBA RGBA64_Color px_R px_G px_B px_A].
  unfold SRGB_via_HSV, SRGB_via_HSL.
  rewrite (SRGB_HSV_grey 0 _ Hfin), (SRGB_HSL_grey 0 _ Hfin), Hhalf.
  unfold HSV_SRGB, HSL_SRGB. cbn [HSV_H HSV_S HSV_V HSL_H HSL_S HSL_L].
  change (wrapHue 1 (of_Z 0)) with (Some (of_Z 0)). cbv iota zeta.
  rewrite Hzero, Hlev.
  change (of_Z 0 <=? epsUnit) with true. change (of_Z 0 =? of_Z 0) with true.
  cbv iota. cbn [option_map]. unfold SRGB_RGBA. cbn [SRGB_R SRGB_G SRGB_B].
  rewrite H2. split; reflexivity.
Qed.

Lemma grey_pixel_through_HSV_and_HSL_witness :
  (0 <= 32768 <= 65535)%Z /\
  option_map SRGB_RGBA
    (SRGB_via_HSV (M := math32_special) (K := ms1_model) 1 (ColorToSRGB grey_pixel))
  = Some (Some 32768%Z, Some 32768%Z, Some 32768%Z, 65535%Z).
Proof.
  assert (Hr : (0 <= 32768 <= 65535)%Z) by (vm_compute; split; discriminate).
  split; [exact Hr|].
  exact (proj1 (@grey_pixel_through_HSV_and_HSL math32_special ms1_model
                  32768%Z 65535%Z Hr ms1_model_Clamp_unit)).
Defined.

(** ** wrapHue on whole degrees *)

Lemma for_loop_fuel_mono {S R : Type} (cond : S -> bool) (body : S -> step S R) n :
  forall fuel s o,
    for_loop fuel cond body s = Some o -> for_loop (fuel + n) cond body s = Some o.
Proof.
  induction fuel as [|fuel IH]; intros s o; [discriminate|].
  cbn [for_loop Nat.add]. destruct (cond s); [|exact (fun H => H)].
  destruct (body s); [apply IH|exact (fun H => H)].
Qed.

Lemma while_fuel_mono {S : Type} (cond : S -> bool) (body : S -> S) n fuel s s' :
  while fuel cond body s = Some s' -> while (fuel + n) cond body s = Some s'.
Proof.
  unfold while.
  destruct (for_loop fuel cond _ s) as [[t|[]]|] eqn:H; try discriminate.
  intros [= <-]. rewrite (for_loop_fuel_mono _ _ n _ _ H). reflexivity.
Qed.

Lemma wrapHue_fuel_mono n fuel h h' :
  wrapHue fuel h = Some h' -> wrapHue (fuel + n) h = Some h'.
Proof.
  unfold wrapHue.
  destruct (while fuel (fun h => h <? of_Z 0) _ h) as [h1|] eqn:H1; [|discriminate].
  rewrite (while_fuel_mono _ _ n _ _ H1). apply while_fuel_mono.
Qed.

Lemma wrapHue_degrees_sweep :
  all_from (Pos.to_nat 7201) (-3600) wrapHue_degrees_check = true.
Proof. by_computation. Qed.

(** X17.  On a whole number of degrees within ten turns of zero,
    wrapHue returns, after at most 11 evaluations of each guard, that
    number reduced into [0, 360): [k mod 360] exactly, so -360, 360 and
    720 all give +0. *)
Theorem wrapHue_whole_degrees (fuel : nat) (k : BinNums.Z) :
  (-3600 <= k <= 3600)%Z ->
  wrapHue (11 + fuel) (of_Z k) = Some (of_Z (k mod 360)).
Proof.
  intros Hk.
  assert (H : wrapHue_degrees_check k = true).
  { apply (@all_from_sound _ _ _ wrapHue_degrees_sweep).
    rewrite positive_nat_Z. lia. }
  unfold wrapHue_degrees_check in H.
  destruct (wrapHue 11 (of_Z k)) as [h|] eqn:Hw; [|discriminate].
  apply same_float_sound in H. subst h.
  apply wrapHue_fuel_mono, Hw.
Qed.

Lemma wrapHue_whole_degrees_witness :
  (-3600 <= -725 <= 3600)%Z /\ wrapHue 11 (of_Z (-725)) = Some (of_Z 355).
Proof.
  assert (Hk : (-3600 <= -725 <= 3600)%Z) by (vm_compute; split; discriminate).
  split; [exact Hk|].
  exact (@wrapHue_whole_degrees 0 (-725)%Z Hk).
Defined.

(** * Interpolation

    ms1.Interp and ms1.InterpWrap are imported and not in src.  The
    statements below take them from section 4.2 of the specification:
    [Interp_spec] as a premise on the ms1 in use, [InterpWrap_spec]
    through [CIELCH_Lerp_spec_hue] and [OKLCH_Lerp_spec_hue]. *)

(** ** Canonical data through the hue blend *)

Section CanonicalProducts.
Local Open Scope Z_scope.



End CanonicalProducts.




(** ** Equal endpoints *)

(** Adding a zero to a finite number gives a number [==] to it. *)
Lemma eqb_add_zero x z :
  is_finite x = true -> is_zero z = true -> (x + z =? x) = true.
Proof.
  destruct x as [sx|sx| |sx m e]; try discriminate; intros _;
    destruct z as [sz| | |]; try discriminate; intros _.
  - destruct sx, sz; reflexivity.
  - unfold F32.add, SFadd, F32.eqb, SFeqb, SFcompare.
    destruct sx; rewrite Z.compare_refl, Pos.compare_cont_refl; reflexivity.
Qed.

Lemma Interp_spec_self x v :
  is_finite x = true -> is_finite v = true -> (Interp_spec x x v =? x) = true.
Proof.
  intros Hx Hv. unfold Interp_spec. rewrite (sub_diag _ Hx).
  apply eqb_add_zero; [exact Hx|apply mul_zero_r, Hv].
Qed.

Lemma InterpWrap_spec_self fuel h v :
  is_finite v = true -> (of_Z 0 <=? h) = true -> (h <? of_Z 360) = true ->
  exists h', InterpWrap_spec (Datatypes.S fuel) h h v = Some h' /\ (h' =? h) = true.
Proof.
  intros Hv H0 H1.
  assert (Hf : is_finite h = true).
  { destruct h as [s|[]| |s m e]; try reflexivity; discriminate. }
  unfold InterpWrap_spec. rewrite (sub_diag _ Hf).
  change (shortest_arc (S754_zero false)) with (S754_zero false).
  pose proof (mul_zero_r _ Hv) as Hz.
  destruct (v * S754_zero false) as [sz| | |]; try discriminate.
  destruct h as [s|[]| |s m e]; try discriminate.
  - exists (S754_zero s + S754_zero sz). split; destruct s, sz; reflexivity.
  - exists (S754_finite s m e). split.
    + change (S754_finite s m e + S754_zero sz) with (S754_finite s m e).
      apply wrapHue_in_range; assumption.
    + unfold F32.eqb, SFeqb, SFcompare.
      destruct s; rewrite Z.compare_refl, Pos.compare_cont_refl; reflexivity.
Qed.


Lemma CIELCH_Lerp_spec_hue_chromatic (K : MS1) fuel from to v :
  (CIELCH_C from <? dec 4 6) = false -> (CIELCH_C to <? dec 4 6) = false ->
  CIELCH_Lerp_spec_hue fuel from to v
  = match InterpWrap_spec fuel (CIELCH_H from) (CIELCH_H to) v with
    | Some h => Some (mkCIELCH (Interp (CIELCH_L from) (CIELCH_L to) v)
                               (Interp (CIELCH_C from) (CIELCH_C to) v) h)
    | None => None
    end.
Proof.
  intros Hf Ht. unfold CIELCH_Lerp_spec_hue. cbv zeta. rewrite Hf, Ht. reflexivity.
Qed.

(** ** The hue blend *)




(** ** Achromatic endpoints *)

(** CIELAB.CIELCH on a colour of chroma 0.001: at most its epsilon
    0.0015, so the hue is the sentinel, whatever Atan2 gave. *)
Lemma CIELAB_CIELCH_greyish (M : Math32) :
  CIELAB_CIELCH cielab_greyish = mkCIELCH (of_Z 50) (dec 1 3) (of_Z 0).
Proof.
  unfold CIELAB_CIELCH. cbv zeta.
  change (CIELAB_L cielab_greyish) with (of_Z 50).
  change (math32.Sqrt (CIELAB_A cielab_greyish * CIELAB_A cielab_greyish
                       + CIELAB_B cielab_greyish * CIELAB_B cielab_greyish))
    with (dec 1 3).
  change (dec 1 3 <=? dec 15 4) with true. cbv iota. reflexivity.
Qed.

(** C5 (violated by the code).  CIELAB{50, 0.001, 0}.CIELCH() has a
    chroma at most 0.0015, the epsilon of its space: CIELAB.CIELCH calls
    it achromatic and gives it the sentinel hue 0.  CIELCH.Lerp tests
    chroma against 0.000004 instead, so toward CIELCH{50, 50, 200} it
    does not adopt the hue 200: for every ms1 and every v the hue of the
    result is InterpWrap(360, 0, 200, v), the sentinel blended as if it
    were a hue.  With the blend of section 4.2 that is 280 at v = 0.5,
    not 200.  A grey of chroma 0 on the same path does adopt: its hue
    is InterpWrap(360, 200, 200, v), which is 200 with that blend. *)
Theorem Lerp_greyish_sentinel_hue_blended (M : Math32) (K : MS1) (v : float32) :
  (CIELCH_H (CIELAB_CIELCH cielab_greyish) = undefinedHue /\
   (CIELCH_C (CIELAB_CIELCH cielab_greyish) <=? dec 15 4) = true) /\
  CIELCH_H (CIELCH_Lerp (CIELAB_CIELCH cielab_greyish) cielch_vivid v)
    = InterpWrap (of_Z 360) undefinedHue (CIELCH_H cielch_vivid) v /\
  (option_map CIELCH_H
     (CIELCH_Lerp_spec_hue 2 (CIELAB_CIELCH cielab_greyish) cielch_vivid (dec 5 1))
     = Some (of_Z 280) /\
   (of_Z 280 =? CIELCH_H cielch_vivid) = false) /\
  (CIELCH_H (CIELCH_Lerp cielch_grey cielch_vivid v)
     = InterpWrap (of_Z 360) (CIELCH_H cielch_vivid) (CIELCH_H cielch_vivid) v /\
   option_map CIELCH_H (CIELCH_Lerp_spec_hue 2 cielch_grey cielch_vivid (dec 5 1))
     = Some (CIELCH_H cielch_vivid)).
Proof.
  rewrite CIELAB_CIELCH_greyish.
  split; [split; by_computation|]. split; [|split; [split|split]].
  - unfold CIELCH_Lerp. cbv zeta.
    change (CIELCH_C (mkCIELCH (of_Z 50) (dec 1 3) (of_Z 0)) <? dec 4 6) with false.
    change (CIELCH_C cielch_vivid <? dec 4 6) with false.
    reflexivity.
  - rewrite CIELCH_Lerp_spec_hue_chromatic by by_computation.
    change (InterpWrap_spec 2 (CIELCH_H (mkCIELCH (of_Z 50) (dec 1 3) (of_Z 0)))
              (CIELCH_H cielch_vivid) (dec 5 1)) with (Some (of_Z 280)).
    reflexivity.
  - by_computation.
  - unfold CIELCH_Lerp. cbv zeta.
    change (CIELCH_C cielch_grey <? dec 4 6) with true.
    change (CIELCH_C cielch_vivid <? dec 4 6) with false.
    reflexivity.
  - unfold CIELCH_Lerp_spec_hue. cbv zeta.
    change (CIELCH_C cielch_grey <? dec 4 6) with true.
    change (CIELCH_C cielch_vivid <? dec 4 6) with false.
    cbn [orb andb negb CIELCH_with_H CIELCH_H].
    change (InterpWrap_spec 2 (CIELCH_H cielch_vivid) (CIELCH_H cielch_vivid) (dec 5 1))
      with (Some (CIELCH_H cielch_vivid)).
    reflexivity.
Qed.

(** ** Lerp of a colour with itself *)

(** C7, counterexample.  An OKLCH colour of chroma 1e-6 blended with
    itself comes back with chroma 0, which is not [==] to it (with
    either Interp).  With the Interp of section 4.2, a NaN parameter or
    an infinite channel gives a NaN channel; and with the hue blend of
    section 4.2 a hue of 400 comes back as 40. *)
Lemma Lerp_self_faint_chroma_counterexample :
  OKLCH_C (OKLCH_Lerp (K := ms1_model) oklch_faint oklch_faint (dec 5 1)) = of_Z 0 /\
  (OKLCH_C oklch_faint =? of_Z 0) = false /\
  OKLCH_eqb (OKLCH_Lerp (K := ms1_model) oklch_faint oklch_faint (dec 5 1))
            oklch_faint = false /\
  OKLCH_eqb (OKLCH_Lerp (K := ms1_spec_interp) oklch_faint oklch_faint (dec 5 1))
            oklch_faint = false /\
  SRGB_eqb (SRGB_Lerp (K := ms1_spec_interp) srgb_sample srgb_sample NaN)
           srgb_sample = false /\
  SRGB_eqb (SRGB_Lerp (K := ms1_spec_interp) srgb_infinite srgb_infinite (dec 5 1))
           srgb_infinite = false /\
  option_map (fun r => OKLCH_eqb r oklch_hue400)
    (OKLCH_Lerp_spec_hue (K := ms1_spec_interp) 2 oklch_hue400 oklch_hue400 (dec 5 1))
  = Some false.
Proof. repeat split; by_computation. Qed.

Section LerpSelf.
Context {K : MS1}.
Hypothesis Interp_is_spec : forall x y a, Interp x y a = Interp_spec x y a.
Variable v : float32.
Hypothesis v_finite : is_finite v = true.

Lemma Interp_self x : is_finite x = true -> (Interp x x v =? x) = true.
Proof. intros Hx. rewrite Interp_is_spec. apply Interp_spec_self; assumption. Qed.

Lemma CIELCH_Lerp_self fuel (c : CIELCH) :
  is_finite (CIELCH_L c) = true -> is_finite (CIELCH_C c) = true ->
  (CIELCH_C c <? dec 4 6) = false ->
  (of_Z 0 <=? CIELCH_H c) = true -> (CIELCH_H c <? of_Z 360) = true ->
  option_map (fun r => CIELCH_eqb r c) (CIELCH_Lerp_spec_hue (Datatypes.S fuel) c c v)
  = Some true.
Proof.
  intros HL HC Hc H0 H1.
  rewrite CIELCH_Lerp_spec_hue_chromatic by assumption.
  destruct (@InterpWrap_spec_self fuel _ _ v_finite H0 H1) as (h' & -> & Hh).
  cbn [option_map]. unfold CIELCH_eqb. cbn [CIELCH_L CIELCH_C CIELCH_H].
  rewrite (Interp_self _ HL), (Interp_self _ HC), Hh. reflexivity.
Qed.

Lemma CIELCH_Lerp_self_powerless (c : CIELCH) :
  (CIELCH_C c <? dec 4 6) = true ->
  CIELCH_Lerp c c v = mkCIELCH (Interp (CIELCH_L c) (CIELCH_L c) v) (of_Z 0) (of_Z 0).
Proof.
  intros Hc. unfold CIELCH_Lerp. cbv zeta. rewrite Hc. reflexivity.
Qed.

End LerpSelf.

(** C7, as amended.  With ms1.Interp as section 4.2 gives it and a
    finite [v], [Lerp(c, c, v) == c] for every colour with finite
    channels of the five Cartesian types, and for every OKLCH or CIELCH
    colour with finite lightness and chroma, a chroma not below
    0.000004 and a hue in [0,360) (the hue blend being that of section
    4.2, which returns at its first guard evaluations).  An OKLCH or
    CIELCH colour whose chroma is below 0.000004 comes back with its
    lightness, chroma exactly 0 and hue exactly 0. *)
Theorem Lerp_self (K : MS1) (v : float32) :
  (forall x y a, Interp x y a = Interp_spec x y a) ->
  is_finite v = true ->
  (forall c : SRGB,
     is_finite (SRGB_R c) = true -> is_finite (SRGB_G c) = true ->
     is_finite (SRGB_B c) = true -> SRGB_eqb (SRGB_Lerp c c v) c = true) /\
  (forall c : LSRGB,
     is_finite (LSRGB_R c) = true -> is_finite (LSRGB_G c) = true ->
     is_finite (LSRGB_B c) = true -> LSRGB_eqb (LSRGB_Lerp c c v) c = true) /\
  (forall c : CIEXYZ,
     is_finite (CIEXYZ_X c) = true -> is_finite (CIEXYZ_Y c) = true ->
     is_finite (CIEXYZ_Z c) = true -> CIEXYZ_eqb (CIEXYZ_Lerp c c v) c = true) /\
  (forall c : CIELAB,
     is_finite (CIELAB_L c) = true -> is_finite (CIELAB_A c) = true ->
     is_finite (CIELAB_B c) = true -> CIELAB_eqb (CIELAB_Lerp c c v) c = true) /\
  (forall c : OKLAB,
     is_finite (OKLAB_L c) = true -> is_finite (OKLAB_A c) = true ->
     is_finite (OKLAB_B c) = true -> OKLAB_eqb (OKLAB_Lerp c c v) c = true) /\
  (forall (fuel : nat) (c : CIELCH),
     is_finite (CIELCH_L c) = true -> is_finite (CIELCH_C c) = true ->
     (CIELCH_C c <? dec 4 6) = false ->
     (of_Z 0 <=? CIELCH_H c) = true -> (CIELCH_H c <? of_Z 360) = true ->
     option_map (fun r => CIELCH_eqb r c)
       (CIELCH_Lerp_spec_hue (Datatypes.S fuel) c c v) = Some true) /\
  (forall (fuel : nat) (c : OKLCH),
     is_finite (OKLCH_L c) = true -> is_finite (OKLCH_C c) = true ->
     (OKLCH_C c <? dec 4 6) = false ->
     (of_Z 0 <=? OKLCH_H c) = true -> (OKLCH_H c <? of_Z 360) = true ->
     option_map (fun r => OKLCH_eqb r c)
       (OKLCH_Lerp_spec_hue (Datatypes.S fuel) c c v) = Some true) /\
  (forall c : CIELCH,
     (CIELCH_C c <? dec 4 6) = true -> is_finite (CIELCH_L c) = true ->
     (CIELCH_L (CIELCH_Lerp c c v) =? CIELCH_L c) = true /\
     CIELCH_C (CIELCH_Lerp c c v) = of_Z 0 /\
     CIELCH_H (CIELCH_Lerp c c v) = of_Z 0) /\
  (forall c : OKLCH,
     (OKLCH_C c <? dec 4 6) = true -> is_finite (OKLCH_L c) = true ->
     (OKLCH_L (OKLCH_Lerp c c v) =? OKLCH_L c) = true /\
     OKLCH_C (OKLCH_Lerp c c v) = of_Z 0 /\
     OKLCH_H (OKLCH_Lerp c c v) = of_Z 0).
Proof.
  intros HI Hv.
  pose proof (@Interp_self K HI v Hv) as Hs.
  split; [|split; [|split; [|split; [|split; [|split; [|split; [|split]]]]]]].
  - intros [r g b] Hr Hg Hb. unfold SRGB_eqb, SRGB_Lerp. cbn [SRGB_R SRGB_G SRGB_B] in *.
    rewrite (Hs _ Hr), (Hs _ Hg), (Hs _ Hb). reflexivity.
  - intros [r g b] Hr Hg Hb. unfold LSRGB_eqb, LSRGB_Lerp.
    cbn [LSRGB_R LSRGB_G LSRGB_B] in *.
    rewrite (Hs _ Hr), (Hs _ Hg), (Hs _ Hb). reflexivity.
  - intros [x y z] Hx Hy Hz. unfold CIEXYZ_eqb, CIEXYZ_Lerp.
    cbn [CIEXYZ_X CIEXYZ_Y CIEXYZ_Z] in *.
    rewrite (Hs _ Hx), (Hs _ Hy), (Hs _ Hz). reflexivity.
  - intros [l a b] Hl Ha Hb. unfold CIELAB_eqb, CIELAB_Lerp.
    cbn [CIELAB_L CIELAB_A CIELAB_B] in *.
    rewrite (Hs _ Hl), (Hs _ Ha), (Hs _ Hb). reflexivity.
  - intros [l a b] Hl Ha Hb. unfold OKLAB_eqb, OKLAB_Lerp.
    cbn [OKLAB_L OKLAB_A OKLAB_B] in *.
    rewrite (Hs _ Hl), (Hs _ Ha), (Hs _ Hb). reflexivity.
  - intros fuel c. apply (@CIELCH_Lerp_self K HI v Hv).
  - intros fuel [l c h] HL HC Hc H0 H1. cbn [OKLCH_L OKLCH_C OKLCH_H] in *.
    pose proof (@CIELCH_Lerp_self K HI v Hv fuel (mkCIELCH l c h) HL HC Hc H0 H1) as E.
    unfold OKLCH_Lerp_spec_hue.
    change (CIELCH_of_OKLCH (mkOKLCH l c h)) with (mkCIELCH l c h).
    destruct (CIELCH_Lerp_spec_hue (Datatypes.S fuel) (mkCIELCH l c h) (mkCIELCH l c h) v)
      as [[l' c' h']|]; [|discriminate].
    exact E.
  - intros c Hc HL. rewrite (@CIELCH_Lerp_self_powerless K v c Hc).
    cbn [CIELCH_L CIELCH_C CIELCH_H]. split; [apply Hs, HL|split; reflexivity].
  - intros [l c h] Hc HL. cbn [OKLCH_L OKLCH_C OKLCH_H] in *. unfold OKLCH_Lerp.
    change (CIELCH_of_OKLCH (mkOKLCH l c h)) with (mkCIELCH l c h).
    rewrite (@CIELCH_Lerp_self_powerless K v (mkCIELCH l c h) Hc).
    cbn [OKLCH_of_CIELCH CIELCH_of_OKLCH OKLCH_L OKLCH_C OKLCH_H CIELCH_L CIELCH_C CIELCH_H].
    split; [apply Hs, HL|split; reflexivity].
Qed.

Lemma ms1_spec_interp_Interp x y a :
  Interp (MS1 := ms1_spec_interp) x y a = Interp_spec x y a.
Proof. reflexivity. Qed.

Lemma Lerp_self_witness :
  is_finite (dec 5 1) = true /\
  SRGB_eqb (SRGB_Lerp (K := ms1_spec_interp) srgb_sample srgb_sample (dec 5 1))
           srgb_sample = true /\
  option_map (fun r => OKLCH_eqb r oklch_hue10)
    (OKLCH_Lerp_spec_hue (K := ms1_spec_interp) 1 oklch_hue10 oklch_hue10 (dec 5 1))
  = Some true.
Proof.
  assert (Hv : is_finite (dec 5 1) = true) by by_computation.
  pose proof (@Lerp_self ms1_spec_interp (dec 5 1) ms1_spec_interp_Interp Hv)
    as [Hsrgb [_ [_ [_ [_ [_ [Hoklch _]]]]]]].
  split; [exact Hv|]. split.
  - apply Hsrgb; by_computation.
  - apply (Hoklch 0%nat oklch_hue10); by_computation.
Defined.
